(** * A model of the [prefect-init] command line tool (src/cli/__init__.py)

    The module [src/cli/__init__.py] defines three pieces used by the [init]
    command: the context manager [modified_environ], the context manager
    [ChangeDirectory], the helper [copy_template_files], and the command
    [init] itself, which also patches [pyproject.toml].

    The process is modelled as a [world]: the environment ([os.environ]),
    the current working directory, the file system and the log of the
    external commands run so far.  Python code becomes a state and error
    monad over the world; Python exceptions are the values of [exn]. *)

From Stdlib Require Import ZArith.
From stdpp Require Import base gmap sets list strings.

Open Scope Z_scope.

(** ** Paths and file system *)

(** An absolute path, as the list of its components; [[]] is the root. *)
Abbreviation path := (list string).

(** A file system entry: a directory or a regular file with its contents. *)
Inductive node :=
| Dir
| File (contents : string).

Abbreviation fsys := (gmap path node).

(** ** Python exceptions raised by the modelled code *)

Inductive exn :=
| CalledProcessError (args : list string) (returncode : Z)
    (** [subprocess.run(..., check=True)] saw a nonzero exit code *)
| OSError (filename : path)
    (** [os.chdir], [os.mkdir], [open] and friends failed on [filename]
        (FileNotFoundError, NotADirectoryError, PermissionError, ...) *)
| ShutilError (failed : list path)
    (** [shutil.Error], raised by [copytree] with the failed destinations *)
| TomlDecodeError (filename : path)
    (** [toml.load] could not parse the file *)
| TyperExit (code : Z).
    (** [typer.Exit(code=...)] *)

(** ** The process state *)

Record world := mkWorld {
  w_env : gmap string string;   (** [os.environ] *)
  w_cwd : path;                 (** the current working directory *)
  w_fs : fsys;                  (** the file system *)
  w_denied : gset path;         (** directories the process may not enter *)
  w_log : list (list string)    (** external commands run, oldest first *)
}.

Definition set_env (e : gmap string string) (w : world) : world :=
  mkWorld e (w_cwd w) (w_fs w) (w_denied w) (w_log w).
Definition set_cwd (p : path) (w : world) : world :=
  mkWorld (w_env w) p (w_fs w) (w_denied w) (w_log w).
Definition set_fs (f : fsys) (w : world) : world :=
  mkWorld (w_env w) (w_cwd w) f (w_denied w) (w_log w).

(** ** A state and error monad over the world *)

Inductive result (A : Type) :=
| Ok (a : A)
| Err (e : exn).
Arguments Ok {A} a.
Arguments Err {A} e.

Definition M (A : Type) : Type := world -> world * result A.

Definition ret {A} (a : A) : M A := fun w => (w, Ok a).
Definition raise {A} (e : exn) : M A := fun w => (w, Err e).
Definition bind {A B} (m : M A) (k : A -> M B) : M B :=
  fun w => match m w with
           | (w', Ok a) => k a w'
           | (w', Err e) => (w', Err e)
           end.
(** [try: m except e: h e] *)
Definition try_except {A} (m : M A) (h : exn -> M A) : M A :=
  fun w => match m w with
           | (w', Ok a) => (w', Ok a)
           | (w', Err e) => h e w'
           end.

Global Instance M_ret : MRet M := @ret.
Global Instance M_bind : MBind M := fun A B k m => bind m k.

(** ** [modified_environ] (lines 12-41) *)

(** [[env.pop(k, None) for k in ks]] *)
Definition pop_all (ks : list string) (e : gmap string string)
  : gmap string string :=
  foldl (fun e k => delete k e) e ks.

Section modified_environ.
Context {A : Type}.
Variables (remove : list string) (update : gmap string string).

(** [stomped = (set(update.keys()) | set(remove)) & set(env.keys())] *)
Definition stomped (env : gmap string string) : gset string :=
  (dom update ∪ list_to_set remove) ∩ dom env.

(** [update_after = {k: env[k] for k in stomped}] *)
Definition update_after (env : gmap string string) : gmap string string :=
  filter (fun kv => kv.1 ∈ stomped env) env.

(** [remove_after = frozenset(k for k in update if k not in env)] *)
Definition remove_after (env : gmap string string) : list string :=
  filter (fun k => env !! k = None) (map fst (map_to_list update)).

(** On entry: [env.update(update)], then [env.pop(k, None) for k in remove]. *)
Definition environ_enter (env : gmap string string) : gmap string string :=
  pop_all remove (update ∪ env).

(** On exit, [env0] being the environment seen on entry:
    [env.update(update_after)], then [env.pop(k, None) for k in remove_after]. *)
Definition environ_exit (env0 env : gmap string string) : gmap string string :=
  pop_all (remove_after env0) (update_after env0 ∪ env).

(** The [with modified_environ( *remove, **update):] block around [body]:
    the [finally] clause runs on both the normal and the exceptional path,
    and the body's outcome is passed on. *)
Definition modified_environ (body : M A) : M A :=
  fun w =>
    let env0 := w_env w in
    let '(w2, r) := body (set_env (environ_enter env0) w) in
    (set_env (environ_exit env0 (w_env w2)) w2, r).
End modified_environ.

(** [try: m finally: fin] (also the [with] statement of a context manager
    whose [__exit__] returns [None]): [fin] runs on both paths; an exception
    raised by [fin] replaces the outcome of [m]. *)
Definition try_finally {A} (m : M A) (fin : M unit) : M A :=
  fun w => let '(w1, r) := m w in
           match fin w1 with
           | (w2, Ok _) => (w2, r)
           | (w2, Err e) => (w2, Err e)
           end.

(** ** File system primitives *)

(** The node at a path; the root always exists and is a directory. *)
Definition lookup_node (p : path) (fs : fsys) : option node :=
  match p with
  | [] => Some Dir
  | _ => fs !! p
  end.

Global Instance node_eq_dec : EqDecision node.
Proof. solve_decision. Defined.

Definition is_dir (p : path) (fs : fsys) : bool :=
  bool_decide (lookup_node p fs = Some Dir).

Definition path_exists (p : path) (fs : fsys) : bool :=
  bool_decide (is_Some (lookup_node p fs)).

(** [os.getcwd()] / [pathlib.Path.cwd()] *)
Definition getcwd : M path := fun w => (w, Ok (w_cwd w)).

(** [os.chdir(p)]: fails unless [p] is a directory the process may enter. *)
Definition can_enter (p : path) (w : world) : bool :=
  is_dir p (w_fs w) && bool_decide (p ∉ w_denied w).

Definition os_chdir (p : path) : M unit :=
  fun w => if can_enter p w then (set_cwd p w, Ok tt) else (w, Err (OSError p)).

(** Lift a file system operation to the process. *)
Definition on_fs {A} (f : fsys -> fsys * result A) : M A :=
  fun w => let '(fs', r) := f (w_fs w) in (set_fs fs' w, r).

(** ** [ChangeDirectory] (lines 64-84) *)

(** [with ChangeDirectory(new_path): body].  [__enter__] records
    [pathlib.Path.cwd()] in [previous_path] and calls [os.chdir(new_path)];
    if that raises, the [with] statement never calls [__exit__].  Otherwise
    [__exit__] runs [os.chdir(str(previous_path))] whatever the body did. *)
Definition ChangeDirectory {A} (new_path : path) (body : M A) : M A :=
  previous_path ← getcwd;
  os_chdir new_path;;
  try_finally body (os_chdir previous_path).

(** ** [os.mkdir], [pathlib.Path.mkdir] and [os.makedirs] *)

(** The parent directory of a path. *)
Definition parent (p : path) : path := removelast p.

(** [os.mkdir(p)] with the [except OSError: if not p.is_dir(): raise] guard
    that both [pathlib.Path.mkdir(exist_ok=True)] and
    [os.makedirs(exist_ok=True)] put around it. *)
Definition mkdir_exist_ok (p : path) (fs : fsys) : fsys * result unit :=
  match lookup_node p fs with
  | Some Dir => (fs, Ok tt)
  | Some (File _) => (fs, Err (OSError p))
  | None =>
      if is_dir (parent p) fs then (<[p:=Dir]> fs, Ok tt)
      else (fs, Err (OSError p))
  end.

(** [pathlib.Path.mkdir(parents=True, exist_ok=True)], on the reversed path
    [rp] (so that the parent is the structural tail): first [os.mkdir(self)];
    on [FileNotFoundError] (the parent is missing) make the parent and try
    again; on any other [OSError] accept an existing directory. *)
Fixpoint path_mkdir_rev (rp : list string) (fs : fsys) : fsys * result unit :=
  match rp with
  | [] => (fs, Ok tt)
  | _ :: rparent =>
      match lookup_node (rev rp) fs, lookup_node (rev rparent) fs with
      | None, None =>
          match path_mkdir_rev rparent fs with
          | (fs1, Ok _) => mkdir_exist_ok (rev rp) fs1
          | (fs1, Err e) => (fs1, Err e)
          end
      | _, _ => mkdir_exist_ok (rev rp) fs
      end
  end.

Definition path_mkdir (p : path) (fs : fsys) : fsys * result unit :=
  path_mkdir_rev (rev p) fs.

(** [os.makedirs(name, exist_ok=True)], on the reversed path: if the head
    does not exist make it first, then [mkdir(name)] accepting an existing
    directory. *)
Fixpoint os_makedirs_rev (rp : list string) (fs : fsys) : fsys * result unit :=
  match rp with
  | [] => (fs, Ok tt)
  | _ :: rhead =>
      let '(fs1, r) :=
        if path_exists (rev rhead) fs then (fs, Ok tt)
        else os_makedirs_rev rhead fs in
      match r with
      | Ok _ => mkdir_exist_ok (rev rp) fs1
      | Err e => (fs1, Err e)
      end
  end.

Definition os_makedirs (p : path) (fs : fsys) : fsys * result unit :=
  os_makedirs_rev (rev p) fs.

(** ** [shutil.copytree(source, destination, dirs_exist_ok=True)] *)

Set Warnings "-register-all".

(** A source tree: what [os.scandir] lists, in its order. *)
Inductive entry :=
| EFile (name : string) (contents : string)
| EDir (name : string) (entries : list entry).

Definition entry_name (e : entry) : string :=
  match e with EFile n _ | EDir n _ => n end.

(** [shutil.copy2(src, dst)]: into [dst/basename(src)] when [dst] is a
    directory; [open(dst, 'wb')] fails on a directory or a missing parent. *)
Definition copy2 (n c : string) (dst : path) (fs : fsys) : fsys * result unit :=
  let dst := if is_dir dst fs then dst ++ [n] else dst in
  match lookup_node dst fs with
  | Some Dir => (fs, Err (OSError dst))
  | _ =>
      if is_dir (parent dst) fs then (<[dst:=File c]> fs, Ok tt)
      else (fs, Err (OSError dst))
  end.

(** The loop of [_copytree] over the entries of one source directory, with
    its [errors] list: an entry that fails is recorded and the loop goes on. *)
Fixpoint copytree_loop (f : entry -> path -> fsys -> fsys * list path)
    (es : list entry) (dst : path) (fs : fsys) (errors : list path)
    : fsys * list path :=
  match es with
  | [] => (fs, errors)
  | e :: es' =>
      let '(fs', errs) := f e dst fs in
      copytree_loop f es' dst fs' (errors ++ errs)
  end.

(** One iteration of that loop, [dst] being the destination directory: the
    errors it adds.  A file is copied with [copy2]; a directory is copied by
    a recursive [copytree], whose [os.makedirs] failure is an [OSError]
    caught by the loop and whose own [shutil.Error] is merged into
    [errors]. *)
Fixpoint copytree_entry (e : entry) (dst : path) (fs : fsys)
    : fsys * list path :=
  match e with
  | EFile n c =>
      let '(fs', r) := copy2 n c (dst ++ [n]) fs in
      (fs', match r with Ok _ => [] | Err _ => [dst ++ [n]] end)
  | EDir n es =>
      match os_makedirs (dst ++ [n]) fs with
      | (fs1, Err _) => (fs1, [dst ++ [n]])
      | (fs1, Ok _) => copytree_loop copytree_entry es (dst ++ [n]) fs1 []
      end
  end.

(** The top-level call: its [os.makedirs] failure propagates, and a nonempty
    [errors] list is raised as [shutil.Error]. *)
Definition copytree (es : list entry) (dst : path) (fs : fsys)
    : fsys * result unit :=
  match os_makedirs dst fs with
  | (fs1, Err e) => (fs1, Err e)
  | (fs1, Ok _) =>
      let '(fs2, errors) := copytree_loop copytree_entry es dst fs1 [] in
      (fs2, match errors with [] => Ok tt | _ => Err (ShutilError errors) end)
  end.

(** ** [copy_template_files] (lines 47-62) *)

Definition copy_template_files_fs (source : list entry) (destination : path)
    (fs : fsys) : fsys * result unit :=
  match path_mkdir destination fs with
  | (fs1, Err e) => (fs1, Err e)
  | (fs1, Ok _) => copytree source destination fs1
  end.

(** The default template, [src/_templates/default]. *)
Definition hello_py : string :=
"from prefect import task

@task
def hello(name: str) -> str:
    return f'Hello {name}!'
".

Definition hello_world_py : string :=
"from prefect import flow
from tasks.hello import hello
import asyncio

@flow
async def hello_world(names: list[str] = ['Ford Prefect', 'Marvin']) -> list[str]:
    return hello.map(names).result()

if __name__ == '__main__':
    asyncio.run(hello_world())
".

Definition default_template : list entry :=
  [EDir "src" [EDir "tasks" [EFile "hello.py" hello_py];
               EDir "flows" [EFile "hello_world.py" hello_world_py]]].

(** ** The TOML document of [pyproject.toml]

    [toml.load] returns nested Python dicts; a dict is an association list
    with unique keys, in insertion order. *)
Inductive tvalue :=
| TStr (s : string)
| TInt (z : Z)
| TBool (b : bool)
| TArr (vs : list tvalue)
| TTable (t : list (string * tvalue)).

Abbreviation table := (list (string * tvalue)).

(** [d.get(k)] *)
Fixpoint dict_get (k : string) (d : table) : option tvalue :=
  match d with
  | [] => None
  | (k', v) :: d' => if String.eqb k k' then Some v else dict_get k d'
  end.

(** [d[k] = v]: replaces the value in place, or appends a new key. *)
Fixpoint dict_set (k : string) (v : tvalue) (d : table) : table :=
  match d with
  | [] => [(k, v)]
  | (k', v') :: d' =>
      if String.eqb k k' then (k, v) :: d' else (k', v') :: dict_set k v d'
  end.

(** The literal [{'home': './.prefect', 'profiles_path': './.prefect/profiles.toml'}]. *)
Definition prefect_settings : table :=
  [("home", TStr "./.prefect");
   ("profiles_path", TStr "./.prefect/profiles.toml")].

(** Lines 110-114:
    [pyproject['tool'] = {}] then [pyproject["tool"]["prefect"] = {...}];
    the second assignment mutates the dict just stored under ["tool"], so it
    is read back, updated and stored again. *)
Definition patch_pyproject (pyproject : table) : table :=
  let pyproject := dict_set "tool" (TTable []) pyproject in
  match dict_get "tool" pyproject with
  | Some (TTable tool) =>
      dict_set "tool" (TTable (dict_set "prefect" (TTable prefect_settings) tool))
        pyproject
  | _ => pyproject   (* unreachable: ["tool"] was just bound to a dict *)
  end.

(** ** The [init] command (lines 87-117) *)

Section init_command.

(** The external programs: running [args] with the given environment and
    working directory changes the file system and returns an exit code.  A
    child process cannot change the environment or the working directory
    of its parent. *)
Variable ext : list string -> gmap string string -> path -> fsys -> fsys * Z.

(** [toml.loads] ([None] on a syntax error) and [toml.dumps]. *)
Variable toml_loads : string -> option table.
Variable toml_dumps : table -> string.

(** [subprocess.run(args, check=check)]: the command is recorded in the
    log; with [check] a nonzero exit code raises [CalledProcessError]. *)
Definition subprocess_run (args : list string) (check : bool) : M unit :=
  fun w =>
    let '(fs', rc) := ext args (w_env w) (w_cwd w) (w_fs w) in
    let w' := mkWorld (w_env w) (w_cwd w) fs' (w_denied w) (w_log w ++ [args]) in
    if check && negb (rc =? 0) then (w', Err (CalledProcessError args rc))
    else (w', Ok tt).

Definition uv_init_args (name : string) : list string :=
  ["uv"; "init"; name; "--lib"; "--no-workspace"; "--quiet"; "--no-readme"].
Definition uv_add_args : list string :=
  ["uv"; "add"; "prefect"; "--no-active"].
Definition uv_add_offline_args : list string :=
  ["uv"; "add"; "prefect"; "--offline"; "--no-cache"; "--frozen"].

(** Lines 91-95. *)
Definition create_project (name : string) : M unit :=
  try_except
    (modified_environ [] {["UV_VENV_SEED" := "True"]}
       (subprocess_run (uv_init_args name) true))
    (fun e => match e with
              | CalledProcessError _ _ => raise (TyperExit 1)
              | _ => raise e
              end).

(** Line 98: [copy_template_files(pathlib.Path.cwd())]. *)
Definition copy_templates : M unit :=
  cwd ← getcwd;
  on_fs (copy_template_files_fs default_template cwd).

(** Lines 101-105 (the console spinner is output only). *)
Definition install_prefect : M unit :=
  try_except (subprocess_run uv_add_args true)
    (fun e => match e with
              | CalledProcessError _ _ => subprocess_run uv_add_offline_args true
              | _ => raise e
              end).

(** Lines 108-116: read [pyproject.toml] from the working directory, patch
    the document and write it back. *)
Definition patch_manifest : M unit :=
  cwd ← getcwd;
  let p := cwd ++ ["pyproject.toml"] in
  (fun w =>
    match lookup_node p (w_fs w) with
    | Some (File c) =>
        match toml_loads c with
        | Some pyproject =>
            if is_dir (parent p) (w_fs w) then
              (set_fs (<[p:=File (toml_dumps (patch_pyproject pyproject))]> (w_fs w)) w,
               Ok tt)
            else (w, Err (OSError p))
        | None => (w, Err (TomlDecodeError p))
        end
    | _ => (w, Err (OSError p))
    end) : M unit.

(** The steps from the dependency install on. *)
Definition install_and_patch : M unit :=
  install_prefect;;
  patch_manifest.

Definition init (name : string) : M unit :=
  create_project name;;
  cwd ← getcwd;
  ChangeDirectory (cwd ++ [name])
    (copy_templates;;
     install_and_patch).

End init_command.

(** The exit status of the process: 0 on success, the code of
    [typer.Exit], and 1 for an uncaught exception. *)
Definition exit_code (r : result unit) : Z :=
  match r with
  | Ok _ => 0
  | Err (TyperExit c) => c
  | Err _ => 1
  end.

(** ** Conditions on a copy

    A source tree read from a real directory has distinct names in each
    directory. *)
Fixpoint wf_entry (e : entry) : bool :=
  match e with
  | EFile _ _ => true
  | EDir _ es => bool_decide (NoDup (map entry_name es)) && forallb wf_entry es
  end.

Definition wf_source (src : list entry) : bool :=
  bool_decide (NoDup (map entry_name src)) && forallb wf_entry src.

(** The prefixes of a path, the root first. *)
Fixpoint prefixes (p : path) : list path :=
  match p with
  | [] => [[]]
  | c :: r => [] :: map (cons c) (prefixes r)
  end.

(** No prefix of [d] (nor [d] itself) is a regular file. *)
Definition no_file_on (d : path) (fs : fsys) : bool :=
  forallb (fun q => match lookup_node q fs with Some (File _) => false | _ => true end)
    (prefixes d).

(** Nothing lies strictly below [d]. *)
Definition empty_below (d : path) (fs : fsys) : bool :=
  bool_decide (map_Forall (fun k _ => ¬ d `prefix_of` k ∨ k = d) fs).

(** ** Invariants of a copy *)

(** No prefix of [d] is a regular file. *)
Definition NF (d : path) (fs : fsys) : Prop :=
  ∀ q c, q `prefix_of` d -> lookup_node q fs ≠ Some (File c).

(** [fs'] extends [fs] by directories on prefixes of [d]. *)
Definition grows_on (d : path) (fs fs' : fsys) : Prop :=
  ∀ q, fs' !! q = fs !! q ∨ (q `prefix_of` d ∧ fs' !! q = Some Dir).

(** [fs'] differs from [fs] only at or below [pre]. *)
Definition frame_below (pre : path) (fs fs' : fsys) : Prop :=
  ∀ q, ¬ pre `prefix_of` q -> fs' !! q = fs !! q.

(** Induction on source trees, with the hypothesis on every entry of a
    directory. *)
Section entry_rect.
Variable P : entry -> Prop.
Hypothesis HFile : ∀ n c, P (EFile n c).
Hypothesis HDir : ∀ n es, Forall P es -> P (EDir n es).

Fixpoint entry_ind' (e : entry) : P e :=
  match e with
  | EFile n c => HFile n c
  | EDir n es =>
      HDir n es
        ((fix go (es : list entry) : Forall P es :=
            match es with
            | [] => Forall_nil_2 _
            | e' :: es' => Forall_cons_2 _ _ _ (entry_ind' e') (go es')
            end) es)
  end.
End entry_rect.

(** What [copytree_entry] needs at destination [dst] for an entry named [n]. *)
Definition copy_ready (dst : path) (n : string) (fs : fsys) : Prop :=
  NF dst fs ∧ lookup_node dst fs = Some Dir ∧ ∀ p, fs !! (dst ++ n :: p) = None.

Definition copies_cleanly (e : entry) : Prop :=
  ∀ dst fs, wf_entry e = true -> copy_ready dst (entry_name e) fs ->
    ∃ fs', copytree_entry e dst fs = (fs', []) ∧
      frame_below (dst ++ [entry_name e]) fs fs'.

(** ** Sample inputs *)

Definition w_demo : world :=
  mkWorld {[ "PATH" := "/usr/bin"; "UV_VENV_SEED" := "False" ]}
    ["home"; "u"] {[ ["home"] := Dir; ["home"; "u"] := Dir ]} ∅ [].

(** A body that sets the key [K] itself. *)
Definition set_var (k v : string) : M unit :=
  fun w => (set_env (<[k:=v]> (w_env w)) w, Ok tt).

(** A body that moves to the root and then raises. *)
Definition wander_and_fail : M unit :=
  os_chdir [];; raise (CalledProcessError uv_add_offline_args 1).

(** The [tool.<name>] sub-table of a document, if [tool] is a table. *)
Definition tool_sub (name : string) (d : table) : option tvalue :=
  match dict_get "tool" d with
  | Some (TTable t) => dict_get name t
  | _ => None
  end.

(** A manifest with an unrelated [tool.other] table and an old
    [tool.prefect] table. *)
Definition pyproject_with_other : table :=
  [("project", TTable [("name", TStr "demo"); ("version", TStr "0.1.0")]);
   ("tool", TTable [("other", TTable [("x", TInt 1)]);
                    ("prefect", TTable [("home", TStr "/elsewhere")])])].

(** An external tool with no network: [uv add] fails in both modes and
    everything else succeeds without touching the file system. *)
Definition ext_offline (args : list string) (env : gmap string string)
    (cwd : path) (fs : fsys) : fsys * Z :=
  if decide (args = uv_add_args) then (fs, 2)
  else if decide (args = uv_add_offline_args) then (fs, 2)
  else (fs, 0).

(** An external tool that always fails. *)
Definition ext_broken (args : list string) (env : gmap string string)
    (cwd : path) (fs : fsys) : fsys * Z := (fs, 2).

Definition toml_loads_none (s : string) : option table := None.
Definition toml_dumps_empty (d : table) : string := "".

(** A body that removes the directory [p] ([os.rmdir(p)]). *)
Definition rmdir_body (p : path) : M unit :=
  fun w => (set_fs (delete p (w_fs w)) w, Ok tt).

(** An external tool that works: [uv init demo] creates [demo] holding a
    [pyproject.toml]; every other command leaves the file system as it is. *)
Definition ext_uv (args : list string) (env : gmap string string)
    (cwd : path) (fs : fsys) : fsys * Z :=
  if decide (args = uv_init_args "demo") then
    (<[cwd ++ ["demo"; "pyproject.toml"] := File "[project]"]>
       (<[cwd ++ ["demo"] := Dir]> fs), 0)
  else (fs, 0).

(** The same tool with no network: the online [uv add] fails. *)
Definition ext_uv_no_network (args : list string) (env : gmap string string)
    (cwd : path) (fs : fsys) : fsys * Z :=
  if decide (args = uv_add_args) then (fs, 1) else ext_uv args env cwd fs.

Definition toml_loads_project (s : string) : option table :=
  Some [("project", TTable [("name", TStr "demo")])].

(** The regular files of a source tree, with their paths relative to the
    directory holding it. *)
Fixpoint entry_files (e : entry) : list (path * string) :=
  match e with
  | EFile n c => [([n], c)]
  | EDir n es => map (fun pc => (n :: pc.1, pc.2)) (flat_map entry_files es)
  end.

Definition source_files (src : list entry) : list (path * string) :=
  flat_map entry_files src.

(** [fs'] keeps every path of [fs] (a directory stays a directory) and
    differs from [fs] only at paths satisfying [P]. *)
Definition changes_at (P : path -> Prop) (fs fs' : fsys) : Prop :=
  (∀ q n, fs !! q = Some n -> ∃ n', fs' !! q = Some n' ∧ (n = Dir -> n' = Dir)) ∧
  (∀ q, ¬ P q -> fs' !! q = fs !! q).

(** [q] is on the way to [d] or below it. *)
Definition around (d q : path) : Prop := q `prefix_of` d ∨ d `prefix_of` q.

(** What [copytree_entry] guarantees for the files of an entry. *)
Definition copies_into (e : entry) : Prop :=
  ∀ dst fs, wf_entry e = true -> copy_ready dst (entry_name e) fs ->
    ∃ fs', copytree_entry e dst fs = (fs', []) ∧
      frame_below (dst ++ [entry_name e]) fs fs' ∧
      ∀ rel c, (rel, c) ∈ entry_files e -> fs' !! (dst ++ rel) = Some (File c).

(** The [demo] project created in [/home/u] by a working [uv]. *)
Definition fs_demo1 : fsys := (ext_uv (uv_init_args "demo") ∅ ["home"; "u"] (w_fs w_demo)).1.
Definition fs_demo2 : fsys :=
  (copy_template_files_fs default_template ["home"; "u"; "demo"] fs_demo1).1.

(** * Properties *)

(** ** The environment override *)

Section modified_environ_facts.
Variables (remove : list string) (update : gmap string string).

Lemma lookup_pop_all (ks : list string) (m : gmap string string) k :
  pop_all ks m !! k = if bool_decide (k ∈ ks) then None else m !! k.
Proof.
  unfold pop_all; revert m; induction ks as [|k' ks IH]; intros m; cbn [foldl].
  - rewrite bool_decide_false; [done|set_solver].
  - rewrite IH, lookup_delete.
    repeat case_bool_decide; repeat case_decide; set_solver.
Qed.

Lemma elem_of_remove_after (env0 : gmap string string) k :
  k ∈ remove_after update env0 ↔ is_Some (update !! k) ∧ env0 !! k = None.
Proof.
  unfold remove_after. rewrite list_elem_of_filter, list_elem_of_In, in_map_iff.
  split.
  - intros [Hk [[k' v] [<- Hin]]]. split; [|done].
    apply list_elem_of_In, elem_of_map_to_list in Hin. simpl. by eexists.
  - intros [[v Hv] Hk]. split; [done|]. exists (k, v). split; [done|].
    by apply list_elem_of_In, elem_of_map_to_list.
Qed.

Lemma lookup_update_after (env0 : gmap string string) k :
  update_after remove update env0 !! k =
    if bool_decide (is_Some (update !! k) ∨ k ∈ remove) then env0 !! k else None.
Proof.
  unfold update_after, stomped. rewrite map_lookup_filter.
  destruct (env0 !! k) as [v|] eqn:Hv; simpl; [|by case_bool_decide].
  case_guard as Hg; case_bool_decide as Hb; simpl in *; try done; exfalso;
    [apply Hb | apply Hg];
    rewrite ?elem_of_intersection, ?elem_of_union, ?elem_of_dom,
      ?elem_of_list_to_set in *.
  - destruct Hg as [[?|?] _]; auto.
  - split; [destruct Hb; auto|]. rewrite Hv. by eexists.
Qed.

Lemma lookup_environ_enter (env0 : gmap string string) k :
  environ_enter remove update env0 !! k =
    if bool_decide (k ∈ remove) then None
    else match update !! k with Some v => Some v | None => env0 !! k end.
Proof.
  unfold environ_enter. rewrite lookup_pop_all, lookup_union.
  case_bool_decide; [done|]. by destruct (update !! k), (env0 !! k).
Qed.

Lemma lookup_environ_exit (env0 env : gmap string string) k :
  environ_exit remove update env0 env !! k =
    if bool_decide (is_Some (update !! k) ∧ env0 !! k = None) then None
    else if bool_decide (is_Some (update !! k) ∨ k ∈ remove) then
      match env0 !! k with Some v => Some v | None => env !! k end
    else env !! k.
Proof.
  unfold environ_exit. rewrite lookup_pop_all, lookup_union, lookup_update_after.
  case_bool_decide as H1; case_bool_decide as H2; rewrite elem_of_remove_after in H1;
    try tauto; case_bool_decide; try done.
  - by destruct (env0 !! k), (env !! k).
  - by destruct (env !! k).
Qed.

(** Exiting right after entering gives the environment back. *)
Lemma environ_exit_enter (env0 : gmap string string) :
  environ_exit remove update env0 (environ_enter remove update env0) = env0.
Proof.
  apply map_eq; intros k.
  rewrite lookup_environ_exit, lookup_environ_enter.
  destruct (update !! k) as [u|] eqn:Hu, (env0 !! k) as [v|] eqn:Hv;
    repeat case_bool_decide; naive_solver.
Qed.
End modified_environ_facts.

(** ** The working-directory override *)

Lemma ChangeDirectory_unfold {A} (new_path : path) (body : M A) (w : world) :
  ChangeDirectory new_path body w =
    if can_enter new_path w then
      let '(w1, r) := body (set_cwd new_path w) in
      if can_enter (w_cwd w) w1 then (set_cwd (w_cwd w) w1, r)
      else (w1, Err (OSError (w_cwd w)))
    else (w, Err (OSError new_path)).
Proof.
  unfold ChangeDirectory, mbind, M_bind, bind, getcwd, os_chdir, try_finally.
  destruct (can_enter new_path w); [|done].
  destruct (body (set_cwd new_path w)) as [w1 r].
  by destruct (can_enter (w_cwd w) w1).
Qed.

(** C3: entering and then exiting the scoped environment override, around a
    body that returns normally or raises without touching the environment,
    leaves the environment equal to its snapshot [S] exactly, and passes the
    body's outcome on. *)
Theorem modified_environ_restores {A} (remove : list string)
    (update : gmap string string) (body : M A) (w : world)
    (Hbody : ∀ w', w_env (body w').1 = w_env w') :
  w_env (modified_environ remove update body w).1 = w_env w ∧
  (modified_environ remove update body w).2 =
    (body (set_env (environ_enter remove update (w_env w)) w)).2.
Proof.
  unfold modified_environ.
  pose proof (Hbody (set_env (environ_enter remove update (w_env w)) w)) as H.
  destruct (body _) as [w2 r]; simpl in *. rewrite H.
  split; [apply environ_exit_enter|done].
Qed.

(** An instance: [UV_VENV_SEED] is overridden and [HOME] removed around a
    body that raises. *)
Lemma modified_environ_restores_witness :
  w_env (modified_environ ["HOME"] {[ "UV_VENV_SEED" := "True"; "X" := "1" ]}
           (raise (TyperExit 1) : M unit) w_demo).1 = w_env w_demo.
Proof.
  apply (modified_environ_restores ["HOME"] {[ "UV_VENV_SEED" := "True"; "X" := "1" ]}
           (raise (TyperExit 1)) w_demo).
  intros w'. reflexivity.
Defined.

(** C8: a key both updated and removed is absent inside the scope (the
    removal is applied after the update), and whatever the body does, on
    exit the key is back to its value before the scope (or absent if it had
    none). *)
Theorem modified_environ_update_and_remove {A} (remove : list string)
    (update : gmap string string) (body : M A) (w : world) (k : string)
    (Hu : is_Some (update !! k)) (Hr : k ∈ remove) :
  environ_enter remove update (w_env w) !! k = None ∧
  w_env (modified_environ remove update body w).1 !! k = w_env w !! k.
Proof.
  split.
  - rewrite lookup_environ_enter. by rewrite bool_decide_true.
  - unfold modified_environ. destruct (body _) as [w2 r]; simpl.
    rewrite lookup_environ_exit.
    destruct (w_env w !! k) as [v|] eqn:Hv.
    + rewrite bool_decide_false by naive_solver.
      by rewrite bool_decide_true by auto.
    + by rewrite bool_decide_true by auto.
Qed.

Lemma modified_environ_update_and_remove_witness :
  environ_enter ["UV_VENV_SEED"] {[ "UV_VENV_SEED" := "True" ]}
    (w_env w_demo) !! "UV_VENV_SEED" = None ∧
  w_env (modified_environ ["UV_VENV_SEED"] {[ "UV_VENV_SEED" := "True" ]}
           (set_var "UV_VENV_SEED" "0") w_demo).1 !! "UV_VENV_SEED" = Some "False".
Proof.
  apply (modified_environ_update_and_remove ["UV_VENV_SEED"]
           {[ "UV_VENV_SEED" := "True" ]} (set_var "UV_VENV_SEED" "0") w_demo
           "UV_VENV_SEED").
  - by eexists.
  - left.
Defined.

(** C10: the exit of the override only restores the keys it touched: a key
    outside the update map and the removal list keeps the value the body
    left it with (in particular a variable the body adds survives the
    scope). *)
Theorem modified_environ_frame {A} (remove : list string)
    (update : gmap string string) (body : M A) (w : world) (k : string)
    (Hu : update !! k = None) (Hr : k ∉ remove) :
  w_env (modified_environ remove update body w).1 !! k =
    w_env (body (set_env (environ_enter remove update (w_env w)) w)).1 !! k.
Proof.
  unfold modified_environ. destruct (body _) as [w2 r]; simpl.
  rewrite lookup_environ_exit, Hu.
  rewrite bool_decide_false by (intros [[? ?] _]; discriminate).
  rewrite bool_decide_false by (intros [[? ?]|?]; [discriminate|done]).
  done.
Qed.

Lemma modified_environ_frame_witness :
  w_env (modified_environ [] {[ "UV_VENV_SEED" := "True" ]}
           (set_var "LEAK" "1") w_demo).1 !! "LEAK" = Some "1".
Proof.
  rewrite (modified_environ_frame [] {[ "UV_VENV_SEED" := "True" ]}
             (set_var "LEAK" "1") w_demo "LEAK").
  - reflexivity.
  - reflexivity.
  - intros H. inversion H.
Defined.

(** C4: for every working directory [D0] and every target [D1] the process
    may enter, a [with ChangeDirectory(D1)] block ends in [D0] again, whether
    the body returns or raises (and even if the body changed directory
    itself), as long as [D0] can still be entered when the block exits; the
    body's outcome is passed on. *)
Theorem ChangeDirectory_restores {A} (D1 : path) (body : M A) (w : world)
    (Henter : can_enter D1 w = true)
    (Hback : can_enter (w_cwd w) (body (set_cwd D1 w)).1 = true) :
  w_cwd (ChangeDirectory D1 body w).1 = w_cwd w ∧
  (ChangeDirectory D1 body w).2 = (body (set_cwd D1 w)).2.
Proof.
  rewrite ChangeDirectory_unfold, Henter.
  destruct (body (set_cwd D1 w)) as [w1 r]; simpl in *.
  by rewrite Hback.
Qed.

Lemma ChangeDirectory_restores_witness :
  w_cwd (ChangeDirectory ["home"] wander_and_fail w_demo).1 = ["home"; "u"] ∧
  (ChangeDirectory ["home"] wander_and_fail w_demo).2 =
    Err (CalledProcessError uv_add_offline_args 1).
Proof.
  apply (ChangeDirectory_restores ["home"] wander_and_fail w_demo);
    vm_compute; reflexivity.
Defined.

(** C7: when the target of [ChangeDirectory] does not exist, is not a
    directory or may not be entered, the [with] statement fails with the
    [OSError] of [os.chdir] (the spec's DirectoryAccessError), leaves the
    working directory and the rest of the process state unchanged, and runs
    neither the body nor the restoring [__exit__]. *)
Theorem ChangeDirectory_enter_fails {A} (D1 : path) (body : M A) (w : world)
    (Hfail : can_enter D1 w = false) :
  ChangeDirectory D1 body w = (w, Err (OSError D1)).
Proof. by rewrite ChangeDirectory_unfold, Hfail. Qed.

Lemma ChangeDirectory_enter_fails_witness :
  ChangeDirectory ["home"; "u"; "missing"] wander_and_fail w_demo =
    (w_demo, Err (OSError ["home"; "u"; "missing"])).
Proof.
  apply ChangeDirectory_enter_fails. vm_compute. reflexivity.
Defined.

(** ** The manifest patch *)

Lemma dict_get_set_eq (k : string) (v : tvalue) (d : table) :
  dict_get k (dict_set k v d) = Some v.
Proof.
  induction d as [|[k' v'] d IH]; simpl.
  - by rewrite String.eqb_refl.
  - destruct (String.eqb_spec k k') as [->|Hne]; simpl.
    + by rewrite String.eqb_refl.
    + by rewrite (proj2 (String.eqb_neq k k') Hne).
Qed.

Lemma dict_get_set_ne (k k' : string) (v : tvalue) (d : table) :
  k' ≠ k -> dict_get k' (dict_set k v d) = dict_get k' d.
Proof.
  intros Hne. induction d as [|[k1 v1] d IH]; simpl.
  - by rewrite (proj2 (String.eqb_neq k' k) Hne).
  - destruct (String.eqb_spec k k1) as [->|Hk1]; simpl.
    + by rewrite (proj2 (String.eqb_neq k' k1) Hne).
    + by destruct (String.eqb k' k1).
Qed.

Lemma patch_pyproject_eq (d : table) :
  patch_pyproject d =
    dict_set "tool" (TTable [("prefect", TTable prefect_settings)])
      (dict_set "tool" (TTable []) d).
Proof. unfold patch_pyproject. by rewrite dict_get_set_eq. Qed.

(** C1 (counterexample): the patch does not keep [tool.other]: line 110
    replaces the whole [tool] table before adding [tool.prefect]. *)
Lemma patch_pyproject_drops_tool_other :
  tool_sub "other" pyproject_with_other = Some (TTable [("x", TInt 1)]) ∧
  tool_sub "other" (patch_pyproject pyproject_with_other) = None.
Proof. split; vm_compute; reflexivity. Qed.

(** C1 (amended): the patch keeps every top-level key other than [tool]
    with its value unchanged, and replaces the whole [tool] table by the
    table holding only [prefect], so pre-existing [tool.*] sub-tables such as
    [tool.other] are dropped. *)
Theorem patch_pyproject_frame (d : table) (k : string) :
  dict_get k (patch_pyproject d) =
    if String.eqb k "tool" then Some (TTable [("prefect", TTable prefect_settings)])
    else dict_get k d.
Proof.
  rewrite patch_pyproject_eq.
  destruct (String.eqb_spec k "tool") as [->|Hne].
  - apply dict_get_set_eq.
  - by rewrite !dict_get_set_ne.
Qed.

(** C2: whatever the manifest held, after the patch [tool.prefect] is
    exactly the two-field table [{home = "./.prefect", profiles_path =
    "./.prefect/profiles.toml"}]: an old [tool.prefect] is replaced, not
    merged. *)
Theorem patch_pyproject_prefect_table (d : table) :
  tool_sub "prefect" (patch_pyproject d) =
    Some (TTable [("home", TStr "./.prefect");
                  ("profiles_path", TStr "./.prefect/profiles.toml")]).
Proof.
  unfold tool_sub. rewrite patch_pyproject_eq, dict_get_set_eq. reflexivity.
Qed.

(** ** The [init] command *)

Section init_facts.
Variable ext : list string -> gmap string string -> path -> fsys -> fsys * Z.
Variable toml_loads : string -> option table.
Variable toml_dumps : table -> string.

Lemma subprocess_run_unfold (args : list string) (w : world) fs' rc :
  ext args (w_env w) (w_cwd w) (w_fs w) = (fs', rc) ->
  subprocess_run ext args true w =
    (mkWorld (w_env w) (w_cwd w) fs' (w_denied w) (w_log w ++ [args]),
     if rc =? 0 then Ok tt else Err (CalledProcessError args rc)).
Proof.
  intros H. unfold subprocess_run. rewrite H. by destruct (rc =? 0).
Qed.

(** C5: the dependency install first runs [uv add prefect --no-active];
    the offline fallback [uv add prefect --offline --no-cache --frozen] runs
    exactly when that exits nonzero; and when the fallback also exits
    nonzero its [CalledProcessError] propagates and [pyproject.toml] is
    not patched (the file system is the one the fallback left). *)
Theorem install_prefect_fallback (w : world) fs1 rc1
    (H1 : ext uv_add_args (w_env w) (w_cwd w) (w_fs w) = (fs1, rc1)) :
  let w1 := mkWorld (w_env w) (w_cwd w) fs1 (w_denied w)
              (w_log w ++ [uv_add_args]) in
  (rc1 = 0 -> install_prefect ext w = (w1, Ok tt)) ∧
  (rc1 ≠ 0 -> install_prefect ext w = subprocess_run ext uv_add_offline_args true w1) ∧
  (∀ fs2 rc2, rc1 ≠ 0 ->
     ext uv_add_offline_args (w_env w) (w_cwd w) fs1 = (fs2, rc2) -> rc2 ≠ 0 ->
     install_and_patch ext toml_loads toml_dumps w =
       (mkWorld (w_env w) (w_cwd w) fs2 (w_denied w)
          (w_log w ++ [uv_add_args] ++ [uv_add_offline_args]),
        Err (CalledProcessError uv_add_offline_args rc2))).
Proof.
  intros w1.
  assert (Hinst : install_prefect ext w =
            if rc1 =? 0 then (w1, Ok tt)
            else subprocess_run ext uv_add_offline_args true w1).
  { unfold install_prefect, try_except.
    rewrite (subprocess_run_unfold _ _ _ _ H1). by destruct (rc1 =? 0). }
  split; [|split].
  - intros ->. by rewrite Hinst.
  - intros Hne. rewrite Hinst. by rewrite (proj2 (Z.eqb_neq rc1 0) Hne).
  - intros fs2 rc2 Hne H2 Hne2.
    unfold install_and_patch, mbind, M_bind, bind.
    rewrite Hinst, (proj2 (Z.eqb_neq rc1 0) Hne).
    rewrite (subprocess_run_unfold uv_add_offline_args w1 fs2 rc2 H2).
    rewrite (proj2 (Z.eqb_neq rc2 0) Hne2). simpl.
    by rewrite <- app_assoc.
Qed.

(** C6: when [uv init] exits nonzero, [init] ends with [typer.Exit(code=1)]
    (exit status 1) right away: no [uv add] is run, the working directory
    is unchanged, no template is copied and no manifest written (the file
    system is the one [uv init] left), and the environment is back to its
    value before the call. *)
Theorem init_create_project_failure (name : string) (w : world) fs' rc
    (Hext : ext (uv_init_args name)
              (environ_enter [] {[ "UV_VENV_SEED" := "True" ]} (w_env w))
              (w_cwd w) (w_fs w) = (fs', rc))
    (Hrc : rc ≠ 0) :
  init ext toml_loads toml_dumps name w =
    (mkWorld (w_env w) (w_cwd w) fs' (w_denied w) (w_log w ++ [uv_init_args name]),
     Err (TyperExit 1)) ∧
  exit_code (init ext toml_loads toml_dumps name w).2 = 1.
Proof.
  assert (H : init ext toml_loads toml_dumps name w =
    (mkWorld (w_env w) (w_cwd w) fs' (w_denied w) (w_log w ++ [uv_init_args name]),
     Err (TyperExit 1))).
  { unfold init, create_project, mbind, M_bind, bind, try_except, modified_environ.
    rewrite (subprocess_run_unfold (uv_init_args name)
               (set_env (environ_enter [] {[ "UV_VENV_SEED" := "True" ]} (w_env w)) w)
               fs' rc Hext).
    rewrite (proj2 (Z.eqb_neq rc 0) Hrc). simpl.
    unfold set_env; simpl. by rewrite environ_exit_enter. }
  split; [exact H|]. by rewrite H.
Qed.
End init_facts.

Lemma install_prefect_fallback_witness :
  install_and_patch ext_offline toml_loads_none toml_dumps_empty w_demo =
    (mkWorld (w_env w_demo) (w_cwd w_demo) (w_fs w_demo) (w_denied w_demo)
       (w_log w_demo ++ [uv_add_args] ++ [uv_add_offline_args]),
     Err (CalledProcessError uv_add_offline_args 2)).
Proof.
  apply (install_prefect_fallback ext_offline toml_loads_none toml_dumps_empty
           w_demo (w_fs w_demo) 2).
  - vm_compute. reflexivity.
  - lia.
  - vm_compute. reflexivity.
  - lia.
Defined.

Lemma init_create_project_failure_witness :
  exit_code (init ext_broken toml_loads_none toml_dumps_empty "demo" w_demo).2 = 1.
Proof.
  apply (init_create_project_failure ext_broken toml_loads_none toml_dumps_empty
           "demo" w_demo (w_fs w_demo) 2).
  - reflexivity.
  - lia.
Defined.

(** ** Directory creation and template copy *)

Arguments lookup_node : simpl never.
Arguments is_dir : simpl never.
Arguments path_exists : simpl never.

Lemma lookup_node_snoc (l : path) (c : string) (fs : fsys) :
  lookup_node (l ++ [c]) fs = fs !! (l ++ [c]).
Proof. by destruct l. Qed.

Lemma lookup_node_same (q : path) (fs fs' : fsys) :
  fs' !! q = fs !! q -> lookup_node q fs' = lookup_node q fs.
Proof. unfold lookup_node. by destruct q. Qed.

Lemma is_dir_true (p : path) (fs : fsys) :
  is_dir p fs = true <-> lookup_node p fs = Some Dir.
Proof. unfold is_dir. by rewrite bool_decide_eq_true. Qed.

Lemma prefix_snoc_inv (q l : path) (x : string) :
  q `prefix_of` l ++ [x] -> q `prefix_of` l ∨ q = l ++ [x].
Proof.
  intros [k Hk]. induction k as [|y k' _] using rev_ind.
  - right. by rewrite app_nil_r in Hk.
  - left. rewrite app_assoc in Hk. apply app_inj_tail in Hk as [Hk _].
    by exists k'.
Qed.

Lemma not_prefix_longer (q l : path) :
  (length l < length q)%nat -> ¬ q `prefix_of` l.
Proof. intros Hl Hp. apply prefix_length in Hp. lia. Qed.

Lemma NF_prefix (d d' : path) (fs : fsys) :
  d `prefix_of` d' -> NF d' fs -> NF d fs.
Proof. intros Hp H q c Hq. apply H. by trans d. Qed.

Lemma NF_grows (d : path) (fs fs' : fsys) :
  NF d fs -> grows_on d fs fs' -> NF d fs'.
Proof.
  intros Hnf Hg q c Hq. destruct q as [|x q']; [unfold lookup_node; done|].
  destruct (Hg (x :: q')) as [Heq|[_ Hd]].
  - rewrite (lookup_node_same _ fs fs' Heq). by apply Hnf.
  - unfold lookup_node. by rewrite Hd.
Qed.

Lemma lookup_node_cons (c : string) (p : path) (fs : fsys) :
  lookup_node (c :: p) fs = fs !! (c :: p).
Proof. reflexivity. Qed.

Lemma snoc_not_nil (l : path) (c : string) : l ++ [c] ≠ [].
Proof. by destruct l. Qed.

Lemma mkdir_exist_ok_spec (p : path) (fs : fsys) :
  p ≠ [] ->
  lookup_node p fs = Some Dir ∨
    (lookup_node p fs = None ∧ lookup_node (parent p) fs = Some Dir) ->
  ∃ fs', mkdir_exist_ok p fs = (fs', Ok tt) ∧ lookup_node p fs' = Some Dir ∧
    ∀ q, fs' !! q = fs !! q ∨ (q = p ∧ fs' !! q = Some Dir).
Proof.
  intros Hp [H|[H Hpar]]; unfold mkdir_exist_ok; rewrite H.
  - exists fs. split; [done|]. split; [done|]. intros q; by left.
  - rewrite (proj2 (is_dir_true _ _) Hpar).
    eexists; split; [done|]. split.
    + destruct p as [|x p']; [done|]. by rewrite lookup_node_cons, lookup_insert_eq.
    + intros q. destruct (decide (q = p)) as [->|Hne].
      * right. by rewrite lookup_insert_eq.
      * left. by rewrite lookup_insert_ne.
Qed.

(** The step shared by [os.makedirs] and [pathlib.Path.mkdir]: [mkdir] of
    [l ++ [c]] once its parent [l] is a directory obtained by growing. *)
Lemma mkdir_after_parent (l : path) (c : string) (fs fs1 : fsys) :
  NF (l ++ [c]) fs -> grows_on l fs fs1 -> lookup_node l fs1 = Some Dir ->
  ∃ fs', mkdir_exist_ok (l ++ [c]) fs1 = (fs', Ok tt) ∧
    lookup_node (l ++ [c]) fs' = Some Dir ∧ grows_on (l ++ [c]) fs fs'.
Proof.
  intros Hnf Hg Hpar.
  assert (Hp : lookup_node (l ++ [c]) fs1 = lookup_node (l ++ [c]) fs).
  { apply lookup_node_same. destruct (Hg (l ++ [c])) as [H|[H _]]; [done|].
    exfalso. revert H. apply not_prefix_longer. rewrite length_app; simpl; lia. }
  destruct (mkdir_exist_ok_spec (l ++ [c]) fs1) as (fs' & H1 & H2 & H3).
  { apply snoc_not_nil. }
  { rewrite Hp. destruct (lookup_node (l ++ [c]) fs) as [[|c']|] eqn:Hl.
    - by left.
    - exfalso. by apply (Hnf (l ++ [c]) c').
    - right. split; [done|]. unfold parent. by rewrite removelast_last. }
  exists fs'. split; [done|]. split; [done|].
  intros q. destruct (H3 q) as [Hq|[-> Hd]].
  - rewrite Hq. destruct (Hg q) as [Hq'|[Hpre Hd]]; [by left|].
    right. split; [by apply prefix_app_r|done].
  - by right.
Qed.

Lemma os_makedirs_rev_spec (rp : list string) (fs : fsys) :
  NF (rev rp) fs ->
  ∃ fs', os_makedirs_rev rp fs = (fs', Ok tt) ∧
    lookup_node (rev rp) fs' = Some Dir ∧ grows_on (rev rp) fs fs'.
Proof.
  revert fs; induction rp as [|c r IH]; intros fs Hnf.
  - exists fs. split; [done|]. split; [done|]. intros q; by left.
  - cbn [os_makedirs_rev]. change (rev (c :: r)) with (rev r ++ [c]) in *.
    assert (HnfR : NF (rev r) fs) by (eapply NF_prefix; [|exact Hnf]; by apply prefix_app_r).
    destruct (path_exists (rev r) fs) eqn:He.
    + apply mkdir_after_parent; [done| |].
      * intros q; by left.
      * unfold path_exists in He. apply bool_decide_eq_true in He.
        destruct (lookup_node (rev r) fs) as [[|c']|] eqn:Hl; [done| |by destruct He].
        exfalso. by apply (HnfR (rev r) c').
    + destruct (IH fs HnfR) as (fs1 & H1 & H2 & H3). rewrite H1.
      by apply mkdir_after_parent.
Qed.

Lemma path_mkdir_rev_spec (rp : list string) (fs : fsys) :
  NF (rev rp) fs ->
  ∃ fs', path_mkdir_rev rp fs = (fs', Ok tt) ∧
    lookup_node (rev rp) fs' = Some Dir ∧ grows_on (rev rp) fs fs'.
Proof.
  revert fs; induction rp as [|c r IH]; intros fs Hnf.
  - exists fs. split; [done|]. split; [done|]. intros q; by left.
  - cbn [path_mkdir_rev]. change (rev (c :: r)) with (rev r ++ [c]) in *.
    assert (HnfR : NF (rev r) fs) by (eapply NF_prefix; [|exact Hnf]; by apply prefix_app_r).
    assert (Hgid : grows_on (rev r) fs fs) by (intros q; by left).
    destruct (lookup_node (rev r ++ [c]) fs) as [[|c1]|] eqn:Hp; simpl.
    + exists fs. unfold mkdir_exist_ok. rewrite Hp.
      split; [done|]. split; [done|]. intros q; by left.
    + exfalso. by apply (Hnf (rev r ++ [c]) c1).
    + destruct (lookup_node (rev r) fs) as [[|c2]|] eqn:Hpar; simpl.
      * by apply mkdir_after_parent.
      * exfalso. by apply (HnfR (rev r) c2).
      * destruct (IH fs HnfR) as (fs1 & H1 & H2 & H3). rewrite H1.
        by apply mkdir_after_parent.
Qed.

Lemma path_mkdir_rev_dir (rp : list string) (fs : fsys) :
  lookup_node (rev rp) fs = Some Dir -> path_mkdir_rev rp fs = (fs, Ok tt).
Proof.
  destruct rp as [|c r]; [done|]. intros H. cbn [path_mkdir_rev].
  change (rev (c :: r)) with (rev r ++ [c]) in *.
  rewrite H. simpl. unfold mkdir_exist_ok. by rewrite H.
Qed.

Lemma prefix_snoc_cons (l p : path) (n m : string) :
  l ++ [n] `prefix_of` l ++ m :: p -> n = m.
Proof. intros H. apply prefix_app_inv in H. by apply prefix_cons_inv_1 in H. Qed.

Lemma copy_ready_frame (dst : path) (n m : string) (fs fs' : fsys) :
  n ≠ m -> copy_ready dst m fs -> frame_below (dst ++ [n]) fs fs' ->
  copy_ready dst m fs'.
Proof.
  intros Hnm (Hnf & Hd & He) Hfr.
  assert (Hshort : ∀ q, q `prefix_of` dst -> lookup_node q fs' = lookup_node q fs).
  { intros q Hq. apply lookup_node_same, Hfr. intros Hq'.
    assert (Hle := prefix_length _ _ (transitivity Hq' Hq)).
    rewrite length_app in Hle; simpl in Hle; lia. }
  split; [|split].
  - intros q c Hq. rewrite (Hshort q Hq). by apply Hnf.
  - by rewrite (Hshort dst (reflexivity _)).
  - intros p. rewrite Hfr; [apply He|]. intros H. by apply Hnm, (prefix_snoc_cons dst p).
Qed.

Lemma copytree_loop_clean (es : list entry) (dst : path) (fs : fsys)
    (errors : list path) :
  Forall copies_cleanly es -> NoDup (map entry_name es) ->
  Forall (fun e => wf_entry e = true) es ->
  (∀ n, n ∈ map entry_name es -> copy_ready dst n fs) ->
  ∃ fs', copytree_loop copytree_entry es dst fs errors = (fs', errors) ∧
    frame_below dst fs fs'.
Proof.
  revert fs errors; induction es as [|e es IH]; intros fs errors Hc Hnd Hwf Hr.
  - exists fs. split; [done|]. by intros q.
  - inversion Hc as [|? ? He Hc']; subst. inversion Hwf as [|? ? We Hwf']; subst.
    simpl in Hnd. apply NoDup_cons in Hnd as [Hnin Hnd].
    destruct (He dst fs We (Hr _ (list_elem_of_here _ _))) as (fs1 & H1 & F1).
    simpl. rewrite H1, app_nil_r.
    destruct (IH fs1 errors Hc' Hnd Hwf') as (fs2 & H2 & F2).
    { intros m Hm. apply (copy_ready_frame _ (entry_name e) m fs).
      - intros Heq. rewrite Heq in Hnin. by apply Hnin.
      - apply Hr. by apply list_elem_of_further.
      - done. }
    exists fs2. split; [done|]. intros q Hq. rewrite F2 by done. apply F1.
    intros H. apply Hq. eapply prefix_app_l. exact H.
Qed.

Lemma wf_entry_dir (n : string) (es : list entry) :
  wf_entry (EDir n es) = true ->
  NoDup (map entry_name es) ∧ Forall (fun e => wf_entry e = true) es.
Proof.
  simpl. intros H. apply andb_prop in H as [H1 H2].
  split; [by apply bool_decide_eq_true in H1|].
  apply Forall_forall. intros e He. apply forallb_forall with (x := e) in H2; [done|].
  by apply list_elem_of_In.
Qed.

Lemma copytree_entry_clean (e : entry) : copies_cleanly e.
Proof.
  induction e as [n c|n es IHes] using entry_ind';
    intros dst fs Hwf (Hnf & Hd & He); simpl in He |- *.
  - assert (Hn : lookup_node (dst ++ [n]) fs = None)
      by (rewrite lookup_node_snoc; apply (He [])).
    unfold copy2.
    assert (Hnd : is_dir (dst ++ [n]) fs = false)
      by (unfold is_dir; rewrite Hn; by apply bool_decide_eq_false).
    rewrite Hnd. simpl. rewrite Hn. unfold parent. rewrite removelast_last.
    rewrite (proj2 (is_dir_true _ _) Hd).
    eexists; split; [reflexivity|]. intros q Hq.
    rewrite lookup_insert_ne; [done|]. intros <-. by apply Hq.
  - apply wf_entry_dir in Hwf as [Hnd Hwf].
    set (d' := dst ++ [n]).
    assert (Hn : fs !! d' = None) by apply (He []).
    assert (Hmk : os_makedirs d' fs = (<[d':=Dir]> fs, Ok tt)).
    { unfold os_makedirs, d'. rewrite rev_unit. cbn [os_makedirs_rev].
      change (rev (n :: rev dst)) with (rev (rev dst) ++ [n]).
      rewrite rev_involutive.
      assert (Hpe : path_exists dst fs = true)
        by (unfold path_exists; apply bool_decide_eq_true; rewrite Hd; by eexists).
      rewrite Hpe. simpl. unfold mkdir_exist_ok.
      rewrite lookup_node_snoc. fold d'. rewrite Hn. unfold d', parent.
      by rewrite removelast_last, (proj2 (is_dir_true _ _) Hd). }
    rewrite Hmk.
    assert (Hne : ∀ q, q ≠ d' -> (<[d':=Dir]> fs) !! q = fs !! q)
      by (intros q Hq; by rewrite lookup_insert_ne).
    destruct (copytree_loop_clean es d' (<[d':=Dir]> fs) [] IHes Hnd Hwf)
      as (fs2 & H2 & F2).
    { intros m Hm. split; [|split].
      - intros q c Hq. unfold d' in Hq. apply prefix_snoc_inv in Hq as [Hq| ->].
        + rewrite lookup_node_same with (fs := fs); [by apply Hnf|].
          apply Hne. intros ->. apply (not_prefix_longer d' dst); [|done].
          unfold d'. rewrite length_app; simpl; lia.
        + rewrite lookup_node_snoc. fold d'. by rewrite lookup_insert_eq.
      - unfold d'. rewrite lookup_node_snoc. fold d'. by rewrite lookup_insert_eq.
      - intros p. rewrite Hne.
        + unfold d'. rewrite <- app_assoc. apply (He (m :: p)).
        + intros Heq. assert (Hl := f_equal length Heq).
          rewrite !length_app in Hl; simpl in Hl; lia. }
    exists fs2. split; [done|]. intros q Hq. rewrite F2 by done.
    apply Hne. intros ->. by apply Hq.
Qed.

Lemma prefixes_complete (d q : path) : q `prefix_of` d -> In q (prefixes d).
Proof.
  revert q; induction d as [|c r IH]; intros q Hq; simpl.
  - apply prefix_nil_inv in Hq. by left.
  - destruct q as [|x q']; [by left|]. right.
    pose proof (prefix_cons_inv_1 _ _ _ _ Hq) as ->.
    apply prefix_cons_inv_2 in Hq. apply in_map. by apply IH.
Qed.

Lemma no_file_on_NF (d : path) (fs : fsys) : no_file_on d fs = true -> NF d fs.
Proof.
  intros H q c Hq Hf. unfold no_file_on in H. rewrite forallb_forall in H.
  specialize (H q (prefixes_complete d q Hq)). by rewrite Hf in H.
Qed.

Lemma empty_below_spec (d : path) (fs : fsys) :
  empty_below d fs = true -> ∀ m p, fs !! (d ++ m :: p) = None.
Proof.
  unfold empty_below. intros H m p. apply bool_decide_eq_true in H.
  destruct (fs !! (d ++ m :: p)) as [x|] eqn:Hx; [|done].
  destruct (H _ _ Hx) as [Hn|Heq].
  - exfalso. apply Hn. by apply prefix_app_r.
  - exfalso. assert (Hl := f_equal length Heq). rewrite length_app in Hl. simpl in Hl. lia.
Qed.

Lemma grows_below (d : path) (fs fs' : fsys) :
  grows_on d fs fs' -> ∀ m p, fs' !! (d ++ m :: p) = fs !! (d ++ m :: p).
Proof.
  intros G m p. destruct (G (d ++ m :: p)) as [H|[Hp _]]; [done|].
  exfalso. revert Hp. apply not_prefix_longer. rewrite length_app. simpl. lia.
Qed.

(** C9: copying the template set into a destination that was already
    created empty (with [mkdir -p]) succeeds and gives exactly the file
    system that copying into a destination that did not exist yet gives:
    for every source tree read from a directory (distinct names in each
    directory) and every destination [d] with no regular file on its path
    and nothing below it, [mkdir -p d] succeeds, the copy into the created
    [d] succeeds, and its result is that of the copy made without creating
    [d] first. *)
Theorem copy_template_files_precreated (src : list entry) (d : path) (fs : fsys)
    (Hwf : wf_source src = true) (Hnf : no_file_on d fs = true)
    (Hempty : empty_below d fs = true) :
  ∃ fs' fs'', path_mkdir d fs = (fs', Ok tt) ∧
    copy_template_files_fs src d fs' = (fs'', Ok tt) ∧
    copy_template_files_fs src d fs = (fs'', Ok tt).
Proof.
  apply no_file_on_NF in Hnf.
  destruct (path_mkdir_rev_spec (rev d) fs) as (fs1 & H1 & D1 & G1);
    [by rewrite rev_involutive|].
  rewrite rev_involutive in D1, G1.
  assert (Hsame : copy_template_files_fs src d fs1 = copytree src d fs1 ∧
                  copy_template_files_fs src d fs = copytree src d fs1).
  { unfold copy_template_files_fs, path_mkdir. rewrite H1.
    rewrite path_mkdir_rev_dir; [done|]. by rewrite rev_involutive. }
  assert (Hnf1 : NF d fs1) by (by apply NF_grows with fs).
  destruct (os_makedirs_rev_spec (rev d) fs1) as (fs2 & H2 & D2 & G2);
    [by rewrite rev_involutive|].
  rewrite rev_involutive in D2, G2.
  destruct (wf_entry_dir "" src Hwf) as [Hnd Hwfs].
  destruct (copytree_loop_clean src d fs2 []) as (fs3 & H3 & _); try done.
  { apply Forall_forall. intros e _. apply copytree_entry_clean. }
  { intros m _. split; [|split].
    - by apply NF_grows with fs1.
    - done.
    - intros p. rewrite (grows_below d fs1 fs2 G2), (grows_below d fs fs1 G1).
      by apply empty_below_spec. }
  assert (Hct : copytree src d fs1 = (fs3, Ok tt)).
  { unfold copytree, os_makedirs. by rewrite H2, H3. }
  exists fs1, fs3. split; [|split].
  - done.
  - by rewrite (proj1 Hsame).
  - by rewrite (proj2 Hsame).
Qed.

(** The default template copied into [/home/u/demo], which does not exist
    yet. *)
Lemma copy_template_files_precreated_witness :
  ∃ fs' fs'', path_mkdir ["home"; "u"; "demo"] (w_fs w_demo) = (fs', Ok tt) ∧
    copy_template_files_fs default_template ["home"; "u"; "demo"] fs' = (fs'', Ok tt) ∧
    copy_template_files_fs default_template ["home"; "u"; "demo"] (w_fs w_demo) =
      (fs'', Ok tt).
Proof.
  apply copy_template_files_precreated; vm_compute; reflexivity.
Defined.

(** ** Further properties of the environment override *)

(** A key the override updates, or removes while it is set, is back to its
    value from before the scope (absent if it had none), whatever the body
    did to it. *)
Theorem modified_environ_restores_touched {A} (remove : list string)
    (update : gmap string string) (body : M A) (w : world) (k : string)
    (Hk : is_Some (update !! k) ∨ (k ∈ remove ∧ is_Some (w_env w !! k))) :
  w_env (modified_environ remove update body w).1 !! k = w_env w !! k.
Proof.
  unfold modified_environ. destruct (body _) as [w2 r]; simpl.
  rewrite lookup_environ_exit.
  destruct (w_env w !! k) as [v|] eqn:Hv.
  - rewrite bool_decide_false by naive_solver.
    by rewrite bool_decide_true by naive_solver.
  - destruct Hk as [Hu|[_ [? H]]]; [|discriminate].
    by rewrite bool_decide_true by auto.
Qed.

Lemma modified_environ_restores_touched_witness :
  w_env (modified_environ ["PATH"] {[ "X" := "1" ]}
           (set_var "PATH" "/tmp";; set_var "X" "2") w_demo).1 !! "PATH" =
    Some "/usr/bin".
Proof.
  rewrite (modified_environ_restores_touched ["PATH"] {[ "X" := "1" ]}
             (set_var "PATH" "/tmp";; set_var "X" "2") w_demo "PATH").
  - reflexivity.
  - right. split; [left|]. eexists. reflexivity.
Defined.

(** A key that is removed but was not set before the scope and is not
    updated is not removed again on exit: a value the body gives it
    survives the scope. *)
Theorem modified_environ_removed_unset_survives {A} (remove : list string)
    (update : gmap string string) (body : M A) (w : world) (k : string)
    (Hr : k ∈ remove) (Hu : update !! k = None) (Hk : w_env w !! k = None) :
  w_env (modified_environ remove update body w).1 !! k =
    w_env (body (set_env (environ_enter remove update (w_env w)) w)).1 !! k.
Proof.
  unfold modified_environ. destruct (body _) as [w2 r]; simpl.
  rewrite lookup_environ_exit, Hu, Hk.
  rewrite bool_decide_false by (intros [[? ?] _]; discriminate).
  by rewrite bool_decide_true by auto.
Qed.

Lemma modified_environ_removed_unset_survives_witness :
  w_env (modified_environ ["HOME"] ∅ (set_var "HOME" "/tmp") w_demo).1 !! "HOME" =
    Some "/tmp".
Proof.
  rewrite (modified_environ_removed_unset_survives ["HOME"] ∅
             (set_var "HOME" "/tmp") w_demo "HOME").
  - reflexivity.
  - left.
  - reflexivity.
  - reflexivity.
Defined.

(** ** Further properties of [ChangeDirectory] *)

(** When the directory the block started in can no longer be entered at
    exit, the [os.chdir] of [__exit__] raises: its [OSError] replaces the
    body's outcome and the process stays in the directory the body left it
    in. *)
Theorem ChangeDirectory_exit_fails {A} (D1 : path) (body : M A) (w : world)
    (Henter : can_enter D1 w = true)
    (Hback : can_enter (w_cwd w) (body (set_cwd D1 w)).1 = false) :
  ChangeDirectory D1 body w = ((body (set_cwd D1 w)).1, Err (OSError (w_cwd w))).
Proof.
  rewrite ChangeDirectory_unfold, Henter.
  destruct (body (set_cwd D1 w)) as [w1 r]; simpl in *.
  by rewrite Hback.
Qed.

Lemma ChangeDirectory_exit_fails_witness :
  ChangeDirectory ["home"] (rmdir_body ["home"; "u"]) w_demo =
    ((rmdir_body ["home"; "u"] (set_cwd ["home"] w_demo)).1,
     Err (OSError ["home"; "u"])).
Proof.
  apply (ChangeDirectory_exit_fails ["home"] (rmdir_body ["home"; "u"]) w_demo);
    vm_compute; reflexivity.
Defined.

(** ** Further properties of the manifest patch *)

Lemma dict_set_set (k : string) (v v' : tvalue) (d : table) :
  dict_set k v (dict_set k v' d) = dict_set k v d.
Proof.
  induction d as [|[k1 v1] d IH]; simpl.
  - by rewrite String.eqb_refl.
  - destruct (String.eqb_spec k k1) as [->|Hne]; simpl.
    + by rewrite String.eqb_refl.
    + by rewrite (proj2 (String.eqb_neq k k1) Hne), IH.
Qed.

Lemma dict_set_keys (k : string) (v : tvalue) (d : table) :
  map fst (dict_set k v d) =
    if bool_decide (k ∈ map fst d) then map fst d else map fst d ++ [k].
Proof.
  induction d as [|[k1 v1] d IH]; simpl.
  - reflexivity.
  - destruct (String.eqb_spec k k1) as [->|Hne]; simpl.
    + by rewrite bool_decide_true by set_solver.
    + rewrite IH. case_bool_decide as H1; case_bool_decide as H2;
        [done| set_solver | set_solver | done].
Qed.

(** Patching an already patched manifest changes nothing. *)
Theorem patch_pyproject_idempotent (d : table) :
  patch_pyproject (patch_pyproject d) = patch_pyproject d.
Proof. rewrite !patch_pyproject_eq. by rewrite !dict_set_set. Qed.

(** The patch keeps the top-level keys of the document in their order and
    adds no other key than [tool], appended at the end when it is missing. *)
Theorem patch_pyproject_keys (d : table) :
  map fst (patch_pyproject d) =
    if bool_decide ("tool" ∈ map fst d) then map fst d else map fst d ++ ["tool"].
Proof.
  rewrite patch_pyproject_eq, !dict_set_keys.
  destruct (decide ("tool" ∈ map fst d)) as [H|H].
  - by rewrite !(bool_decide_true _ H).
  - rewrite !(bool_decide_false _ H). rewrite bool_decide_true; [done|]. set_solver.
Qed.

(** ** Further properties of [init] *)

Lemma environ_enter_seed (env : gmap string string) :
  environ_enter [] {[ "UV_VENV_SEED" := "True" ]} env =
    <[ "UV_VENV_SEED" := "True" ]> env.
Proof. unfold environ_enter, pop_all. simpl. by rewrite insert_union_singleton_l. Qed.

Lemma is_dir_insert_ne (q p : path) (x : node) (fs : fsys) :
  q ≠ p -> is_dir q (<[p:=x]> fs) = is_dir q fs.
Proof.
  intros Hne. unfold is_dir.
  rewrite (lookup_node_same q fs (<[p:=x]> fs)); [done|].
  by rewrite lookup_insert_ne.
Qed.

Section init_more.
Variable ext : list string -> gmap string string -> path -> fsys -> fsys * Z.
Variable toml_loads : string -> option table.
Variable toml_dumps : table -> string.

Lemma create_project_ok (name : string) (w : world) fs' :
  ext (uv_init_args name) (<[ "UV_VENV_SEED" := "True" ]> (w_env w))
    (w_cwd w) (w_fs w) = (fs', 0) ->
  create_project ext name w =
    (mkWorld (w_env w) (w_cwd w) fs' (w_denied w) (w_log w ++ [uv_init_args name]),
     Ok tt).
Proof.
  intros Hext. rewrite <- environ_enter_seed in Hext.
  unfold create_project, try_except, modified_environ.
  rewrite (subprocess_run_unfold ext (uv_init_args name)
             (set_env (environ_enter [] {[ "UV_VENV_SEED" := "True" ]} (w_env w)) w)
             fs' 0 Hext).
  simpl. unfold set_env; simpl. by rewrite environ_exit_enter.
Qed.

(** When [uv init] succeeds, [create_project] returns normally; [uv init]
    ran with [UV_VENV_SEED=True] added to the caller's environment, and
    afterwards the environment is the caller's again. *)
Theorem create_project_success (name : string) (w : world) fs'
    (Hext : ext (uv_init_args name) (<[ "UV_VENV_SEED" := "True" ]> (w_env w))
              (w_cwd w) (w_fs w) = (fs', 0)) :
  create_project ext name w =
    (mkWorld (w_env w) (w_cwd w) fs' (w_denied w) (w_log w ++ [uv_init_args name]),
     Ok tt).
Proof. by apply create_project_ok. Qed.

Lemma patch_manifest_ok (w : world) c doc :
  lookup_node (w_cwd w ++ ["pyproject.toml"]) (w_fs w) = Some (File c) ->
  toml_loads c = Some doc -> is_dir (w_cwd w) (w_fs w) = true ->
  patch_manifest toml_loads toml_dumps w =
    (set_fs (<[w_cwd w ++ ["pyproject.toml"] :=
               File (toml_dumps (patch_pyproject doc))]> (w_fs w)) w, Ok tt).
Proof.
  intros Hf Hl Hd. unfold patch_manifest, mbind, M_bind, bind, getcwd. simpl.
  rewrite Hf, Hl. unfold parent. by rewrite removelast_last, Hd.
Qed.

(** [init] once [uv init] has succeeded, the install step being given. *)
Lemma init_with_install (name : string) (w : world) fs1 fs2 fs3 c doc cmds :
  ext (uv_init_args name) (<[ "UV_VENV_SEED" := "True" ]> (w_env w))
    (w_cwd w) (w_fs w) = (fs1, 0) ->
  can_enter (w_cwd w ++ [name]) (set_fs fs1 w) = true ->
  copy_template_files_fs default_template (w_cwd w ++ [name]) fs1 = (fs2, Ok tt) ->
  install_prefect ext (mkWorld (w_env w) (w_cwd w ++ [name]) fs2 (w_denied w)
                         (w_log w ++ [uv_init_args name])) =
    (mkWorld (w_env w) (w_cwd w ++ [name]) fs3 (w_denied w)
       (w_log w ++ [uv_init_args name] ++ cmds), Ok tt) ->
  fs3 !! (w_cwd w ++ [name; "pyproject.toml"]) = Some (File c) ->
  toml_loads c = Some doc ->
  is_dir (w_cwd w ++ [name]) fs3 = true ->
  can_enter (w_cwd w) (set_fs fs3 w) = true ->
  init ext toml_loads toml_dumps name w =
    (mkWorld (w_env w) (w_cwd w)
       (<[w_cwd w ++ [name; "pyproject.toml"] :=
          File (toml_dumps (patch_pyproject doc))]> fs3)
       (w_denied w) (w_log w ++ [uv_init_args name] ++ cmds), Ok tt).
Proof.
  intros Hinit Hproj Hcopy Hinst Hman Hload Hdir Hback.
  assert (Hp : w_cwd w ++ [name; "pyproject.toml"] =
                 (w_cwd w ++ [name]) ++ ["pyproject.toml"])
    by (by rewrite <- app_assoc).
  unfold init, mbind, M_bind, bind.
  rewrite (create_project_ok name w fs1 Hinit). simpl.
  rewrite ChangeDirectory_unfold. simpl.
  change (can_enter (w_cwd w ++ [name]) (set_fs fs1 w)) with
    (can_enter (w_cwd w ++ [name])
       (mkWorld (w_env w) (w_cwd w) fs1 (w_denied w) (w_log w ++ [uv_init_args name])))
    in Hproj.
  rewrite Hproj.
  unfold copy_templates, mbind, M_bind, bind, getcwd, on_fs. simpl.
  rewrite Hcopy. simpl.
  unfold install_and_patch, mbind, M_bind, bind.
  unfold set_fs, set_cwd in Hinst |- *; simpl in Hinst |- *. rewrite Hinst.
  rewrite (patch_manifest_ok _ c doc); simpl.
  - rewrite <- Hp.
    change (can_enter (w_cwd w) (set_fs fs3 w)) with
      (is_dir (w_cwd w) fs3 && bool_decide (w_cwd w ∉ w_denied w)) in Hback.
    unfold can_enter; simpl. rewrite is_dir_insert_ne; [by rewrite Hback|].
    intros Heq. assert (Hl := f_equal length Heq).
    rewrite length_app in Hl; simpl in Hl; lia.
  - by rewrite lookup_node_snoc, <- Hp.
  - done.
  - done.
Qed.

(** When every step succeeds ([uv init], the template copy, the online
    [uv add], the parse of [pyproject.toml]), [init] returns normally
    (exit status 0) in the directory it started in, with its environment;
    it ran [uv init] and [uv add prefect --no-active] and nothing else, and
    the only change after [uv add] is [pyproject.toml] rewritten with the
    patched document. *)
Theorem init_success (name : string) (w : world) fs1 fs2 fs3 c doc
    (Hinit : ext (uv_init_args name) (<[ "UV_VENV_SEED" := "True" ]> (w_env w))
               (w_cwd w) (w_fs w) = (fs1, 0))
    (Hproj : can_enter (w_cwd w ++ [name]) (set_fs fs1 w) = true)
    (Hcopy : copy_template_files_fs default_template (w_cwd w ++ [name]) fs1 =
               (fs2, Ok tt))
    (Hadd : ext uv_add_args (w_env w) (w_cwd w ++ [name]) fs2 = (fs3, 0))
    (Hman : fs3 !! (w_cwd w ++ [name; "pyproject.toml"]) = Some (File c))
    (Hload : toml_loads c = Some doc)
    (Hdir : is_dir (w_cwd w ++ [name]) fs3 = true)
    (Hback : can_enter (w_cwd w) (set_fs fs3 w) = true) :
  init ext toml_loads toml_dumps name w =
    (mkWorld (w_env w) (w_cwd w)
       (<[w_cwd w ++ [name; "pyproject.toml"] :=
          File (toml_dumps (patch_pyproject doc))]> fs3)
       (w_denied w) (w_log w ++ [uv_init_args name; uv_add_args]), Ok tt) ∧
  exit_code (init ext toml_loads toml_dumps name w).2 = 0.
Proof.
  assert (H : init ext toml_loads toml_dumps name w =
    (mkWorld (w_env w) (w_cwd w)
       (<[w_cwd w ++ [name; "pyproject.toml"] :=
          File (toml_dumps (patch_pyproject doc))]> fs3)
       (w_denied w) (w_log w ++ [uv_init_args name] ++ [uv_add_args]), Ok tt)).
  { apply (init_with_install name w fs1 fs2 fs3 c doc); try done.
    unfold install_prefect, try_except.
    rewrite (subprocess_run_unfold ext uv_add_args
               (mkWorld (w_env w) (w_cwd w ++ [name]) fs2 (w_denied w) (w_log w ++ [uv_init_args name])) fs3 0 Hadd). simpl.
    by rewrite <- app_assoc. }
  split; [exact H|]. by rewrite H.
Qed.

(** When the online [uv add] fails and the offline one succeeds, [init]
    still returns normally (exit status 0), with the same effect as on the
    online path; it ran [uv init] and both [uv add] commands. *)
Theorem init_success_offline (name : string) (w : world) fs1 fs2 fs2' fs3 rc c doc
    (Hinit : ext (uv_init_args name) (<[ "UV_VENV_SEED" := "True" ]> (w_env w))
               (w_cwd w) (w_fs w) = (fs1, 0))
    (Hproj : can_enter (w_cwd w ++ [name]) (set_fs fs1 w) = true)
    (Hcopy : copy_template_files_fs default_template (w_cwd w ++ [name]) fs1 =
               (fs2, Ok tt))
    (Hadd : ext uv_add_args (w_env w) (w_cwd w ++ [name]) fs2 = (fs2', rc))
    (Hrc : rc ≠ 0)
    (Hoff : ext uv_add_offline_args (w_env w) (w_cwd w ++ [name]) fs2' = (fs3, 0))
    (Hman : fs3 !! (w_cwd w ++ [name; "pyproject.toml"]) = Some (File c))
    (Hload : toml_loads c = Some doc)
    (Hdir : is_dir (w_cwd w ++ [name]) fs3 = true)
    (Hback : can_enter (w_cwd w) (set_fs fs3 w) = true) :
  init ext toml_loads toml_dumps name w =
    (mkWorld (w_env w) (w_cwd w)
       (<[w_cwd w ++ [name; "pyproject.toml"] :=
          File (toml_dumps (patch_pyproject doc))]> fs3)
       (w_denied w)
       (w_log w ++ [uv_init_args name; uv_add_args; uv_add_offline_args]), Ok tt) ∧
  exit_code (init ext toml_loads toml_dumps name w).2 = 0.
Proof.
  assert (H : init ext toml_loads toml_dumps name w =
    (mkWorld (w_env w) (w_cwd w)
       (<[w_cwd w ++ [name; "pyproject.toml"] :=
          File (toml_dumps (patch_pyproject doc))]> fs3)
       (w_denied w)
       (w_log w ++ [uv_init_args name] ++ [uv_add_args; uv_add_offline_args]), Ok tt)).
  { apply (init_with_install name w fs1 fs2 fs3 c doc); try done.
    unfold install_prefect, try_except.
    rewrite (subprocess_run_unfold ext uv_add_args
               (mkWorld (w_env w) (w_cwd w ++ [name]) fs2 (w_denied w) (w_log w ++ [uv_init_args name])) fs2' rc Hadd).
    rewrite (proj2 (Z.eqb_neq rc 0) Hrc). simpl.
    rewrite (subprocess_run_unfold ext uv_add_offline_args
               (mkWorld (w_env w) (w_cwd w ++ [name]) fs2' (w_denied w)
                  ((w_log w ++ [uv_init_args name]) ++ [uv_add_args])) fs3 0 Hoff). simpl.
    by rewrite <- !app_assoc. }
  split; [exact H|]. by rewrite H.
Qed.

(** When [uv init] exits 0 but the project directory cannot be entered
    (it was not created), [init] fails with the [OSError] of [os.chdir]
    (exit status 1) after [uv init] alone: nothing is copied, installed or
    patched, and the working directory and environment are the caller's. *)
Theorem init_project_dir_missing (name : string) (w : world) fs1
    (Hinit : ext (uv_init_args name) (<[ "UV_VENV_SEED" := "True" ]> (w_env w))
               (w_cwd w) (w_fs w) = (fs1, 0))
    (Hproj : can_enter (w_cwd w ++ [name]) (set_fs fs1 w) = false) :
  init ext toml_loads toml_dumps name w =
    (mkWorld (w_env w) (w_cwd w) fs1 (w_denied w) (w_log w ++ [uv_init_args name]),
     Err (OSError (w_cwd w ++ [name]))) ∧
  exit_code (init ext toml_loads toml_dumps name w).2 = 1.
Proof.
  assert (H : init ext toml_loads toml_dumps name w =
    (mkWorld (w_env w) (w_cwd w) fs1 (w_denied w) (w_log w ++ [uv_init_args name]),
     Err (OSError (w_cwd w ++ [name])))).
  { unfold init, mbind, M_bind, bind.
    rewrite (create_project_ok name w fs1 Hinit). simpl.
    rewrite ChangeDirectory_unfold. simpl.
    change (can_enter (w_cwd w ++ [name]) (set_fs fs1 w)) with
      (can_enter (w_cwd w ++ [name])
         (mkWorld (w_env w) (w_cwd w) fs1 (w_denied w) (w_log w ++ [uv_init_args name])))
      in Hproj.
    by rewrite Hproj. }
  split; [exact H|]. by rewrite H.
Qed.

(** [patch_manifest] changes nothing but [pyproject.toml] in the working
    directory: every other path keeps its node, the environment, working
    directory and log are untouched, and when it raises (no such file, a
    TOML syntax error) nothing at all has changed. *)
Theorem patch_manifest_frame (w : world) :
  (∀ q, q ≠ w_cwd w ++ ["pyproject.toml"] ->
     w_fs (patch_manifest toml_loads toml_dumps w).1 !! q = w_fs w !! q) ∧
  set_fs (w_fs (patch_manifest toml_loads toml_dumps w).1) w =
    (patch_manifest toml_loads toml_dumps w).1 ∧
  ((patch_manifest toml_loads toml_dumps w).2 ≠ Ok tt ->
     (patch_manifest toml_loads toml_dumps w).1 = w).
Proof.
  unfold patch_manifest, mbind, M_bind, bind, getcwd. simpl.
  destruct (lookup_node (w_cwd w ++ ["pyproject.toml"]) (w_fs w)) as [[|c]|];
    simpl; try (split; [done|split; [by destruct w|done]]).
  destruct (toml_loads c) as [doc|]; simpl;
    try (split; [done|split; [by destruct w|done]]).
  destruct (is_dir (parent (w_cwd w ++ ["pyproject.toml"])) (w_fs w)); simpl;
    [|split; [done|split; [by destruct w|done]]].
  split; [|split].
  - intros q Hq. by rewrite lookup_insert_ne.
  - done.
  - done.
Qed.
End init_more.

Lemma create_project_success_witness :
  create_project ext_uv "demo" w_demo =
    (mkWorld (w_env w_demo) (w_cwd w_demo)
       (<[["home"; "u"; "demo"; "pyproject.toml"] := File "[project]"]>
          (<[["home"; "u"; "demo"] := Dir]> (w_fs w_demo)))
       (w_denied w_demo) (w_log w_demo ++ [uv_init_args "demo"]), Ok tt).
Proof. apply create_project_success. vm_compute. reflexivity. Defined.


Lemma pair_eq_snd {X Y} (p : X * Y) (y : Y) : p.2 = y -> p = (p.1, y).
Proof. destruct p; simpl; by intros ->. Qed.

Lemma init_success_witness :
  exit_code (init ext_uv toml_loads_project toml_dumps_empty "demo" w_demo).2 = 0.
Proof.
  refine (proj2 (init_success ext_uv toml_loads_project toml_dumps_empty "demo" w_demo
                   fs_demo1 fs_demo2 fs_demo2 "[project]"
                   [("project", TTable [("name", TStr "demo")])] _ _ _ _ _ _ _ _)).
  - reflexivity.
  - vm_compute. reflexivity.
  - apply pair_eq_snd. vm_compute. reflexivity.
  - reflexivity.
  - vm_compute. reflexivity.
  - reflexivity.
  - vm_compute. reflexivity.
  - vm_compute. reflexivity.
Defined.

Lemma init_success_offline_witness :
  exit_code (init ext_uv_no_network toml_loads_project toml_dumps_empty "demo" w_demo).2 = 0.
Proof.
  refine (proj2 (init_success_offline ext_uv_no_network toml_loads_project
                   toml_dumps_empty "demo" w_demo fs_demo1 fs_demo2 fs_demo2 fs_demo2 1
                   "[project]" [("project", TTable [("name", TStr "demo")])]
                   _ _ _ _ _ _ _ _ _ _)).
  - reflexivity.
  - vm_compute. reflexivity.
  - apply pair_eq_snd. vm_compute. reflexivity.
  - reflexivity.
  - lia.
  - reflexivity.
  - vm_compute. reflexivity.
  - reflexivity.
  - vm_compute. reflexivity.
  - vm_compute. reflexivity.
Defined.

Lemma init_project_dir_missing_witness :
  init ext_offline toml_loads_none toml_dumps_empty "demo" w_demo =
    (mkWorld (w_env w_demo) (w_cwd w_demo) (w_fs w_demo) (w_denied w_demo)
       (w_log w_demo ++ [uv_init_args "demo"]),
     Err (OSError ["home"; "u"; "demo"])).
Proof.
  apply (init_project_dir_missing ext_offline toml_loads_none toml_dumps_empty
           "demo" w_demo (w_fs w_demo)); vm_compute; reflexivity.
Defined.

(** ** Further properties of directory creation and the template copy *)

Lemma mkdir_exist_ok_dir (p : path) (fs fs' : fsys) (u : unit) :
  mkdir_exist_ok p fs = (fs', Ok u) -> lookup_node p fs' = Some Dir.
Proof.
  unfold mkdir_exist_ok. destruct (lookup_node p fs) as [[|c]|] eqn:H; intros E.
  - by inversion E; subst.
  - discriminate E.
  - destruct (is_dir (parent p) fs); inversion E; subst.
    destruct p as [|x p']; [discriminate H|].
    by rewrite lookup_node_cons, lookup_insert_eq.
Qed.

Lemma path_mkdir_rev_ok_dir (rp : list string) (fs fs' : fsys) (u : unit) :
  path_mkdir_rev rp fs = (fs', Ok u) -> lookup_node (rev rp) fs' = Some Dir.
Proof.
  destruct rp as [|c r]; cbn [path_mkdir_rev].
  - intros E. by inversion E.
  - destruct (lookup_node (rev (c :: r)) fs), (lookup_node (rev r) fs);
      try apply mkdir_exist_ok_dir.
    destruct (path_mkdir_rev r fs) as [fs1 [u1|e]]; [apply mkdir_exist_ok_dir|].
    discriminate.
Qed.

(** [mkdir -p] is idempotent: running [pathlib.Path.mkdir(parents=True,
    exist_ok=True)] again after it succeeded succeeds and changes nothing. *)
Theorem path_mkdir_idempotent (d : path) (fs fs' : fsys)
    (H : path_mkdir d fs = (fs', Ok tt)) :
  path_mkdir d fs' = (fs', Ok tt).
Proof.
  unfold path_mkdir in *. apply path_mkdir_rev_dir.
  by apply (path_mkdir_rev_ok_dir _ fs fs' tt).
Qed.

Lemma path_mkdir_idempotent_witness :
  path_mkdir ["home"; "u"; "a"; "b"]
      (path_mkdir ["home"; "u"; "a"; "b"] (w_fs w_demo)).1 =
    ((path_mkdir ["home"; "u"; "a"; "b"] (w_fs w_demo)).1, Ok tt).
Proof.
  apply (path_mkdir_idempotent ["home"; "u"; "a"; "b"] (w_fs w_demo)).
  apply pair_eq_snd. vm_compute. reflexivity.
Defined.

(** When the destination is an existing regular file,
    [copy_template_files] fails at its first step ([mkdir] raises
    [FileExistsError], an [OSError]) and the file system is unchanged. *)
Theorem copy_template_files_onto_file (src : list entry) (d : path) (fs : fsys)
    (c : string) (Hf : lookup_node d fs = Some (File c)) :
  copy_template_files_fs src d fs = (fs, Err (OSError d)).
Proof.
  unfold copy_template_files_fs, path_mkdir.
  destruct (rev d) as [|x r] eqn:Hr.
  { apply (f_equal (@rev string)) in Hr. rewrite rev_involutive in Hr. subst. discriminate Hf. }
  assert (Hd : rev (x :: r) = d) by (rewrite <- Hr; apply rev_involutive).
  cbn [path_mkdir_rev]. rewrite Hd, Hf. unfold mkdir_exist_ok. by rewrite Hf.
Qed.

Lemma copy_template_files_onto_file_witness :
  copy_template_files_fs default_template ["home"; "u"; "demo"]
      (<[["home"; "u"; "demo"] := File "x"]> (w_fs w_demo)) =
    (<[["home"; "u"; "demo"] := File "x"]> (w_fs w_demo),
     Err (OSError ["home"; "u"; "demo"])).
Proof.
  apply (copy_template_files_onto_file default_template ["home"; "u"; "demo"] _ "x").
  reflexivity.
Defined.

Lemma changes_refl (P : path -> Prop) (fs : fsys) : changes_at P fs fs.
Proof. split; [|done]. intros q n H. exists n. by split. Qed.

Lemma changes_trans (P : path -> Prop) (fs1 fs2 fs3 : fsys) :
  changes_at P fs1 fs2 -> changes_at P fs2 fs3 -> changes_at P fs1 fs3.
Proof.
  intros [K1 F1] [K2 F2]. split.
  - intros q n H. destruct (K1 q n H) as (n' & H' & D').
    destruct (K2 q n' H') as (n'' & H'' & D''). exists n''. split; [done|].
    intros ->. by apply D'', D'.
  - intros q Hq. by rewrite F2, F1.
Qed.

Lemma changes_weaken (P P' : path -> Prop) (fs fs' : fsys) :
  (∀ q, P q -> P' q) -> changes_at P fs fs' -> changes_at P' fs fs'.
Proof. intros HP [K F]. split; [done|]. intros q Hq. apply F. naive_solver. Qed.

Lemma changes_insert (P : path -> Prop) (p : path) (x : node) (fs : fsys) :
  P p -> (fs !! p = Some Dir -> x = Dir) -> changes_at P fs (<[p:=x]> fs).
Proof.
  intros Hp Hx. split.
  - intros q n H. destruct (decide (q = p)) as [->|Hne].
    + exists x. rewrite lookup_insert_eq. split; [done|]. intros ->. by apply Hx.
    + exists n. by rewrite lookup_insert_ne.
  - intros q Hq. rewrite lookup_insert_ne; [done|]. intros ->. tauto.
Qed.

Lemma around_snoc (d : path) (n : string) (q : path) :
  around (d ++ [n]) q -> around d q.
Proof.
  intros [Hq|Hq].
  - apply prefix_snoc_inv in Hq as [Hq| ->]; [by left|]. right. by apply prefix_app_r.
  - right. trans (d ++ [n]); [by apply prefix_app_r|done].
Qed.

Lemma mkdir_exist_ok_changes (p : path) (fs : fsys) :
  changes_at (fun q => q `prefix_of` p) fs (mkdir_exist_ok p fs).1.
Proof.
  unfold mkdir_exist_ok. destruct (lookup_node p fs) as [[|c]|] eqn:H;
    try apply changes_refl.
  destruct (is_dir (parent p) fs); [|apply changes_refl].
  by apply changes_insert.
Qed.

Lemma path_mkdir_rev_changes (rp : list string) (fs : fsys) :
  changes_at (fun q => q `prefix_of` rev rp) fs (path_mkdir_rev rp fs).1.
Proof.
  induction rp as [|c r IH]; [apply changes_refl|]. cbn [path_mkdir_rev].
  destruct (lookup_node (rev (c :: r)) fs), (lookup_node (rev r) fs);
    try apply mkdir_exist_ok_changes.
  assert (Hw : ∀ q, q `prefix_of` rev r -> q `prefix_of` rev (c :: r))
    by (intros q Hq; by apply prefix_app_r).
  destruct (path_mkdir_rev r fs) as [fs1 [u|e]] eqn:E; simpl in IH |- *.
  - apply changes_trans with fs1; [|apply mkdir_exist_ok_changes].
    by apply (changes_weaken _ _ _ _ Hw).
  - by apply (changes_weaken _ _ _ _ Hw).
Qed.

Lemma os_makedirs_rev_changes (rp : list string) (fs : fsys) :
  changes_at (fun q => q `prefix_of` rev rp) fs (os_makedirs_rev rp fs).1.
Proof.
  induction rp as [|c r IH]; [apply changes_refl|]. cbn [os_makedirs_rev].
  assert (Hw : ∀ q, q `prefix_of` rev r -> q `prefix_of` rev (c :: r))
    by (intros q Hq; by apply prefix_app_r).
  destruct (path_exists (rev r) fs); [apply mkdir_exist_ok_changes|].
  destruct (os_makedirs_rev r fs) as [fs1 [u|e]] eqn:E; simpl in IH |- *.
  - apply changes_trans with fs1; [|apply mkdir_exist_ok_changes].
    by apply (changes_weaken _ _ _ _ Hw).
  - by apply (changes_weaken _ _ _ _ Hw).
Qed.

Lemma lookup_node_ne_nil (p : path) (fs : fsys) :
  p ≠ [] -> lookup_node p fs = fs !! p.
Proof. by destruct p. Qed.

Lemma copy2_changes (n c : string) (dst : path) (fs : fsys) :
  changes_at (fun q => dst `prefix_of` q) fs (copy2 n c dst fs).1.
Proof.
  unfold copy2.
  assert (Hp : dst `prefix_of` (if is_dir dst fs then dst ++ [n] else dst))
    by (destruct (is_dir dst fs); [by apply prefix_app_r|done]).
  revert Hp. generalize (if is_dir dst fs then dst ++ [n] else dst). intros dst' Hp.
  destruct (lookup_node dst' fs) as [[|c']|] eqn:H; try apply changes_refl;
    (destruct (is_dir (parent dst') fs); [|apply changes_refl]);
    (apply changes_insert; [done|]);
    (destruct dst' as [|x r]; [discriminate H|]);
    rewrite lookup_node_cons in H; by rewrite H.
Qed.

Lemma copytree_loop_changes (es : list entry) (dst : path) (fs : fsys)
    (errors : list path) :
  Forall (fun e => ∀ dst fs, changes_at (around dst) fs (copytree_entry e dst fs).1) es ->
  changes_at (around dst) fs (copytree_loop copytree_entry es dst fs errors).1.
Proof.
  revert fs errors; induction es as [|e es IH]; intros fs errors Hes;
    [apply changes_refl|].
  inversion Hes as [|? ? He Hes']; subst. simpl.
  specialize (He dst fs).
  destruct (copytree_entry e dst fs) as [fs1 errs]; simpl in He.
  apply changes_trans with fs1; [done|]. by apply IH.
Qed.

Lemma copytree_entry_changes (e : entry) :
  ∀ dst fs, changes_at (around dst) fs (copytree_entry e dst fs).1.
Proof.
  induction e as [n c|n es IHes] using entry_ind'; intros dst fs; simpl.
  - pose proof (copy2_changes n c (dst ++ [n]) fs) as H.
    destruct (copy2 n c (dst ++ [n]) fs) as [fs' r]; simpl in *.
    apply (changes_weaken _ _ _ _ (fun q Hq => around_snoc dst n q (or_intror Hq)) H).
  - pose proof (os_makedirs_rev_changes (rev (dst ++ [n])) fs) as H.
    rewrite rev_involutive in H. unfold os_makedirs.
    assert (Hw : ∀ q, q `prefix_of` dst ++ [n] -> around dst q)
      by (intros q Hq; apply (around_snoc dst n); by left).
    destruct (os_makedirs_rev (rev (dst ++ [n])) fs) as [fs1 [u|e]]; simpl in *.
    + apply changes_trans with fs1; [by apply (changes_weaken _ _ _ _ Hw)|].
      apply (changes_weaken (around (dst ++ [n]))); [apply around_snoc|].
      by apply copytree_loop_changes.
    + by apply (changes_weaken _ _ _ _ Hw).
Qed.

(** Whatever the source tree and the destination, and whether it succeeds
    or fails, [copy_template_files] deletes nothing and never turns a
    directory into a file (it only adds entries and overwrites regular
    files), and it changes nothing that is neither on the way to the
    destination nor below it. *)
Theorem copy_template_files_keeps (src : list entry) (d : path) (fs : fsys) :
  (∀ q n, fs !! q = Some n ->
     ∃ n', (copy_template_files_fs src d fs).1 !! q = Some n' ∧ (n = Dir -> n' = Dir)) ∧
  (∀ q, ¬ q `prefix_of` d -> ¬ d `prefix_of` q ->
     (copy_template_files_fs src d fs).1 !! q = fs !! q).
Proof.
  assert (H : changes_at (around d) fs (copy_template_files_fs src d fs).1).
  { unfold copy_template_files_fs.
    assert (Hw : ∀ q, q `prefix_of` d -> around d q) by (intros q Hq; by left).
    pose proof (path_mkdir_rev_changes (rev d) fs) as H1.
    rewrite rev_involutive in H1. unfold path_mkdir.
    destruct (path_mkdir_rev (rev d) fs) as [fs1 [u|e]]; simpl in *;
      [|by apply (changes_weaken _ _ _ _ Hw)].
    apply changes_trans with fs1; [by apply (changes_weaken _ _ _ _ Hw)|].
    unfold copytree, os_makedirs.
    pose proof (os_makedirs_rev_changes (rev d) fs1) as H2.
    rewrite rev_involutive in H2.
    destruct (os_makedirs_rev (rev d) fs1) as [fs2 [u'|e]]; simpl in *;
      [|by apply (changes_weaken _ _ _ _ Hw)].
    apply changes_trans with fs2; [by apply (changes_weaken _ _ _ _ Hw)|].
    pose proof (copytree_loop_changes src d fs2 []) as H3.
    destruct (copytree_loop copytree_entry src d fs2 []) as [fs3 errs]; simpl in *.
    apply H3. apply Forall_forall. intros e _. apply copytree_entry_changes. }
  destruct H as [K F]. split; [done|].
  intros q Hq1 Hq2. apply F. by intros [?|?].
Qed.

Lemma entry_files_head (e : entry) (rel : path) (c : string) :
  (rel, c) ∈ entry_files e -> ∃ r, rel = entry_name e :: r.
Proof.
  destruct e as [n c'|n es]; simpl.
  - intros H. apply list_elem_of_singleton in H. inversion H; subst. by exists [].
  - intros H. apply list_elem_of_In, in_map_iff in H as ([r c''] & Heq & _).
    inversion Heq; subst. by exists r.
Qed.

Lemma copytree_loop_files (es : list entry) (dst : path) (fs : fsys)
    (errors : list path) :
  Forall copies_into es -> NoDup (map entry_name es) ->
  Forall (fun e => wf_entry e = true) es ->
  (∀ n, n ∈ map entry_name es -> copy_ready dst n fs) ->
  ∃ fs', copytree_loop copytree_entry es dst fs errors = (fs', errors) ∧
    (∀ q, (∀ e, e ∈ es -> ¬ dst ++ [entry_name e] `prefix_of` q) -> fs' !! q = fs !! q) ∧
    (∀ rel c, (rel, c) ∈ flat_map entry_files es -> fs' !! (dst ++ rel) = Some (File c)).
Proof.
  revert fs errors; induction es as [|e es IH]; intros fs errors Hc Hnd Hwf Hr.
  - exists fs. split; [done|]. split; [done|]. intros rel c H. inversion H.
  - inversion Hc as [|? ? He Hc']; subst. inversion Hwf as [|? ? We Hwf']; subst.
    simpl in Hnd. apply NoDup_cons in Hnd as [Hnin Hnd].
    destruct (He dst fs We (Hr _ (list_elem_of_here _ _))) as (fs1 & H1 & F1 & C1).
    simpl. rewrite H1, app_nil_r.
    destruct (IH fs1 errors Hc' Hnd Hwf') as (fs2 & H2 & F2 & C2).
    { intros m Hm. apply (copy_ready_frame _ (entry_name e) m fs).
      - intros Heq. rewrite Heq in Hnin. by apply Hnin.
      - apply Hr. by apply list_elem_of_further.
      - done. }
    exists fs2. split; [done|]. split.
    + intros q Hq. rewrite F2.
      * apply F1. apply Hq. apply list_elem_of_here.
      * intros e' He'. apply Hq. by apply list_elem_of_further.
    + intros rel c Hin. apply elem_of_app in Hin as [Hin|Hin]; [|by apply C2].
      rewrite F2; [by apply C1|].
      intros e' He' Hpre. destruct (entry_files_head e rel c Hin) as [r ->].
      apply (prefix_snoc_cons dst r) in Hpre. apply Hnin. rewrite <- Hpre.
      apply list_elem_of_In, in_map. by apply list_elem_of_In.
Qed.

Lemma copytree_entry_files (e : entry) : copies_into e.
Proof.
  induction e as [n c|n es IHes] using entry_ind';
    intros dst fs Hwf (Hnf & Hd & He); simpl in He |- *.
  - assert (Hn : lookup_node (dst ++ [n]) fs = None)
      by (rewrite lookup_node_snoc; apply (He [])).
    unfold copy2.
    assert (Hnd : is_dir (dst ++ [n]) fs = false)
      by (unfold is_dir; rewrite Hn; by apply bool_decide_eq_false).
    rewrite Hnd. simpl. rewrite Hn. unfold parent. rewrite removelast_last.
    rewrite (proj2 (is_dir_true _ _) Hd).
    eexists; split; [reflexivity|]. split.
    + intros q Hq. rewrite lookup_insert_ne; [done|]. intros <-. by apply Hq.
    + intros rel c' Hin. apply list_elem_of_singleton in Hin. inversion Hin; subst.
      by rewrite lookup_insert_eq.
  - apply wf_entry_dir in Hwf as [Hnd Hwf].
    set (d' := dst ++ [n]).
    assert (Hn : fs !! d' = None) by apply (He []).
    assert (Hmk : os_makedirs d' fs = (<[d':=Dir]> fs, Ok tt)).
    { unfold os_makedirs, d'. rewrite rev_unit. cbn [os_makedirs_rev].
      change (rev (n :: rev dst)) with (rev (rev dst) ++ [n]).
      rewrite rev_involutive.
      assert (Hpe : path_exists dst fs = true)
        by (unfold path_exists; apply bool_decide_eq_true; rewrite Hd; by eexists).
      rewrite Hpe. simpl. unfold mkdir_exist_ok.
      rewrite lookup_node_snoc. fold d'. rewrite Hn. unfold d', parent.
      by rewrite removelast_last, (proj2 (is_dir_true _ _) Hd). }
    rewrite Hmk.
    assert (Hne : ∀ q, q ≠ d' -> (<[d':=Dir]> fs) !! q = fs !! q)
      by (intros q Hq; by rewrite lookup_insert_ne).
    destruct (copytree_loop_files es d' (<[d':=Dir]> fs) [] IHes Hnd Hwf)
      as (fs2 & H2 & F2 & C2).
    { intros m Hm. split; [|split].
      - intros q c Hq. unfold d' in Hq. apply prefix_snoc_inv in Hq as [Hq| ->].
        + rewrite lookup_node_same with (fs := fs); [by apply Hnf|].
          apply Hne. intros ->. apply (not_prefix_longer d' dst); [|done].
          unfold d'. rewrite length_app; simpl; lia.
        + rewrite lookup_node_snoc. fold d'. by rewrite lookup_insert_eq.
      - unfold d'. rewrite lookup_node_snoc. fold d'. by rewrite lookup_insert_eq.
      - intros p. rewrite Hne.
        + unfold d'. rewrite <- app_assoc. apply (He (m :: p)).
        + intros Heq. assert (Hl := f_equal length Heq).
          rewrite !length_app in Hl; simpl in Hl; lia. }
    exists fs2. split; [done|]. split.
    + intros q Hq. rewrite F2.
      * apply Hne. intros ->. by apply Hq.
      * intros e' _ Hpre. apply Hq. trans (d' ++ [entry_name e']); [|done].
        by apply prefix_app_r.
    + intros rel c Hin.
      apply list_elem_of_In, in_map_iff in Hin as ([r c'] & Heq & Hin).
      apply list_elem_of_In in Hin.
      inversion Heq; subst. simpl.
      change (dst ++ n :: r) with (dst ++ [n] ++ r). rewrite app_assoc.
      by apply C2.
Qed.

(** Copying a source tree (distinct names in each directory) into a
    destination with no regular file on its path and nothing below it
    succeeds, and every file of the source ends up at the same relative
    path under the destination with the source's contents. *)
Theorem copy_template_files_contents (src : list entry) (d : path) (fs : fsys)
    (Hwf : wf_source src = true) (Hnf : no_file_on d fs = true)
    (Hempty : empty_below d fs = true) :
  ∃ fs', copy_template_files_fs src d fs = (fs', Ok tt) ∧
    ∀ rel c, (rel, c) ∈ source_files src -> fs' !! (d ++ rel) = Some (File c).
Proof.
  apply no_file_on_NF in Hnf.
  destruct (path_mkdir_rev_spec (rev d) fs) as (fs1 & H1 & D1 & G1);
    [by rewrite rev_involutive|].
  rewrite rev_involutive in D1, G1.
  assert (Hnf1 : NF d fs1) by (by apply NF_grows with fs).
  destruct (os_makedirs_rev_spec (rev d) fs1) as (fs2 & H2 & D2 & G2);
    [by rewrite rev_involutive|].
  rewrite rev_involutive in D2, G2.
  destruct (wf_entry_dir "" src Hwf) as [Hnd Hwfs].
  destruct (copytree_loop_files src d fs2 []) as (fs3 & H3 & _ & C3); try done.
  { apply Forall_forall. intros e _. apply copytree_entry_files. }
  { intros m _. split; [|split].
    - by apply NF_grows with fs1.
    - done.
    - intros p. rewrite (grows_below d fs1 fs2 G2), (grows_below d fs fs1 G1).
      by apply empty_below_spec. }
  exists fs3. split; [|done].
  unfold copy_template_files_fs, path_mkdir. rewrite H1.
  unfold copytree, os_makedirs. by rewrite H2, H3.
Qed.

Lemma copy_template_files_contents_witness :
  ∃ fs', copy_template_files_fs default_template ["home"; "u"; "demo"] (w_fs w_demo) =
      (fs', Ok tt) ∧
    ∀ rel c, (rel, c) ∈ source_files default_template ->
      fs' !! (["home"; "u"; "demo"] ++ rel) = Some (File c).
Proof.
  apply copy_template_files_contents; vm_compute; reflexivity.
Defined.
